(** * gokafkaavro: the Confluent wire-format codec, embedded and verified

    A shallow embedding of [gokafkaavro] (package file with [Codec],
    [NewEncoder] and the framing helpers).  Go values are modelled as follows.

    - [int] is a 64-bit two's-complement integer, carried as [Z]; the
      conversions [uint32(x)], [byte(x)] and [int(x)] have their wrap-around
      written out.
    - [[]byte] is a slice: the elements below [len] and the elements of the
      backing array between [len] and [cap].  Indexing is checked against
      [len], re-slicing against [cap], exactly as the Go runtime does.
    - a run-time panic is an outcome of its own, distinct from a returned
      [error].
    - a Go function with results [(x, err)] returns the pair as it is: the
      value and an optional error ([None] is [nil]).
    - the schema registry and the Avro compiler are collaborators: the
      registry is a record of operations over an abstract registry state, and
      every call to it is appended to a call log. *)

From Stdlib Require Import ZArith List Lia.
From Stdlib.Strings Require Import Byte.
From stdpp Require Import base option list gmap strings.

Import ListNotations.
Local Open Scope Z_scope.
Local Open Scope string_scope.

(** ** Machine integers *)

Module GoInt.

(** [uint32(x)]: truncation to 32 bits. *)
Definition uint32 (x : Z) : Z := x mod 2 ^ 32.

(** [int(x)] on a 64-bit platform: two's-complement wrap to 64 bits. *)
Definition int (x : Z) : Z := (x + 2 ^ 63) mod 2 ^ 64 - 2 ^ 63.

(** [byte(x)]: the low eight bits, as a [byte]. *)
Definition byte_of (x : Z) : byte :=
  default Byte.x00 (Byte.of_N (Z.to_N (x mod 256))).

(** [uint32(b)] for a byte [b]. *)
Definition of_byte (b : byte) : Z := Z.of_N (Byte.to_N b).

Definition in_uint32 (x : Z) : Prop := 0 <= x < 2 ^ 32.

End GoInt.

(** ** Slices and panics *)

Inductive panic : Type :=
| IndexOutOfRange
| SliceBoundsOutOfRange
| NilPointerDereference.

Inductive outcome (A : Type) : Type :=
| Returns (a : A)
| Panics (p : panic).
Arguments Returns {A} a.
Arguments Panics {A} p.

Record slice : Type := mkSlice {
  visible : list byte;   (* elements [0, len) *)
  spare : list byte      (* elements [len, cap) of the backing array *)
}.

Definition len (d : slice) : nat := length (visible d).
Definition cap (d : slice) : nat := (length (visible d) + length (spare d))%nat.
Definition backing (d : slice) : list byte := visible d ++ spare d.

(** A slice holding exactly [l], without spare capacity. *)
Definition slice_of (l : list byte) : slice := mkSlice l [].

(** [d[i]] *)
Definition index (d : slice) (i : nat) : outcome byte :=
  match visible d !! i with
  | Some b => Returns b
  | None => Panics IndexOutOfRange
  end.

(** [d[lo:hi]]: legal when [lo <= hi <= cap(d)]. *)
Definition reslice (d : slice) (lo hi : nat) : outcome slice :=
  if ((lo <=? hi)%nat && (hi <=? cap d)%nat)%bool
  then Returns (mkSlice (take (hi - lo) (drop lo (backing d)))
                        (drop hi (backing d)))
  else Panics SliceBoundsOutOfRange.

(** [d[lo:]]: the upper bound defaults to [len(d)]. *)
Definition reslice_from (d : slice) (lo : nat) : outcome slice :=
  reslice d lo (len d).

(** ** The framing helpers *)

(** [binary.BigEndian.Uint32]: bounds check on [b[3]], then the four bytes
    combined.  A byte shifted by at most 24 stays below [2^32], so the
    [uint32] shifts cannot wrap. *)
Definition BigEndian_Uint32 (b : slice) : outcome Z :=
  match visible b with
  | b0 :: b1 :: b2 :: b3 :: _ =>
      Returns (Z.lor (Z.lor (Z.lor (GoInt.of_byte b3)
                                   (Z.shiftl (GoInt.of_byte b2) 8))
                            (Z.shiftl (GoInt.of_byte b1) 16))
                     (Z.shiftl (GoInt.of_byte b0) 24))
  | _ => Panics IndexOutOfRange
  end.

(** [binary.BigEndian.PutUint32] into a fresh [make([]byte, 4)]. *)
Definition BigEndian_PutUint32 (v : Z) : list byte :=
  [ GoInt.byte_of (Z.shiftr v 24);
    GoInt.byte_of (Z.shiftr v 16);
    GoInt.byte_of (Z.shiftr v 8);
    GoInt.byte_of v ].

Definition getSchemaID (data : slice) : outcome Z :=
  match BigEndian_Uint32 data with
  | Returns u => Returns (GoInt.int u)
  | Panics p => Panics p
  end.

Definition bytesForSchemaID (schemaID : Z) : list byte :=
  BigEndian_PutUint32 (GoInt.uint32 schemaID).

(** [fmt.Sprintf("%v-key", topic)] and [fmt.Sprintf("%v-value", topic)]. *)
Definition getTopicNameStrategy (topic : string) (isKey : bool) : string :=
  if isKey then topic ++ "-key" else topic ++ "-value".

(** The 4-byte big-endian unsigned encoding of [n], in the words of the wire
    format table: most significant byte first, [n] read in base 256. *)
Definition big_endian_u32 (n : Z) : list byte :=
  [ GoInt.byte_of (n / 2 ^ 24);
    GoInt.byte_of (n / 2 ^ 16);
    GoInt.byte_of (n / 2 ^ 8);
    GoInt.byte_of n ].

(** The unsigned number four big-endian bytes denote. *)
Definition big_endian_value (bs : list byte) : Z :=
  fold_left (fun acc b => acc * 256 + GoInt.of_byte b) bs 0.

(** ** Errors, interface values and the collaborators *)

(** A Go [error] is carried as its message. *)
Definition error : Type := string.
Definition errors_New (msg : string) : error := msg.

(** A pointer to an object that is never mutated after its allocation: the
    address gives the object its identity. *)
Record ptr (A : Type) : Type := mkPtr { addr : nat; target : A }.
Arguments mkPtr {A} addr target.
Arguments addr {A} p.
Arguments target {A} p.

(** [goavro.Codec], over the non-nil native values [V]; an [interface{}] is
    [option V], [None] being [nil].  Both methods return their Go results as
    they are. *)
Record goavro_Codec (V : Type) : Type := mkGoavroCodec {
  BinaryFromNative : list byte -> option V -> list byte * option error;
  NativeFromBinary : list byte -> option V * list byte * option error
}.
Arguments mkGoavroCodec {V} _ _.
Arguments BinaryFromNative {V} g buf native.
Arguments NativeFromBinary {V} g buf.

(** The package [goavro]: what [goavro.NewCodec] makes of a schema text. *)
Class goavro (V : Type) : Type := {
  goavro_compile : string -> option (goavro_Codec V) * option error
}.

Record subjectVersionID : Type := mkSubjectVersionID {
  subject : string;
  versionID : Z
}.

#[global] Instance subjectVersionID_eq_dec : EqDecision subjectVersionID.
Proof. solve_decision. Defined.

#[global] Instance subjectVersionID_countable : Countable subjectVersionID.
Proof.
  refine (inj_countable' (fun k => (subject k, versionID k))
                         (fun p => mkSubjectVersionID (fst p) (snd p)) _).
  intros [s v]; reflexivity.
Defined.

(** The interface [schemaRegistryClient] that [Codec] holds, over the state
    [R] of the remote registry. *)
Record schemaRegistryClient (R : Type) : Type := mkSchemaRegistryClient {
  GetVersionFor : string -> string -> R -> (Z * option error) * R;
  GetSchemaFor : subjectVersionID -> R -> (string * option error) * R
}.
Arguments mkSchemaRegistryClient {R} _ _.
Arguments GetVersionFor {R} s subject schema r.
Arguments GetSchemaFor {R} s key r.

(** [schemaregistry.Schema] and the two operations of [schemaregistry.Client]
    that [NewEncoder] uses. *)
Record Schema : Type := mkSchema {
  Schema_Schema : string;
  Schema_Subject : string;
  Schema_Version : Z;
  Schema_ID : Z
}.

Record schemaregistry_Client (R : Type) : Type := mkSchemaregistryClient {
  RegisterNewSchema : string -> string -> R -> (Z * option error) * R;
  IsRegistered : string -> string -> R -> (bool * Schema * option error) * R
}.
Arguments mkSchemaregistryClient {R} _ _.
Arguments RegisterNewSchema {R} s subject schema r.
Arguments IsRegistered {R} s subject schema r.

(** Every registry call made, most recent first. *)
Inductive RegistryCall : Type :=
| CallGetVersionFor (subject schema : string)
| CallGetSchemaFor (key : subjectVersionID)
| CallIsRegistered (subject schema : string)
| CallRegisterNewSchema (subject schema : string).

#[global] Instance RegistryCall_eq_dec : EqDecision RegistryCall.
Proof. solve_decision. Defined.

(** What lies outside the [Codec] object: the registry, the log of the calls
    made to it, and the number of codec objects allocated so far. *)
Record World (R : Type) : Type := mkWorld {
  registry : R;
  calls : list RegistryCall;
  allocs : nat
}.
Arguments mkWorld {R} _ _ _.
Arguments registry {R} w.
Arguments calls {R} w.
Arguments allocs {R} w.

Record Codec (V R : Type) : Type := mkCodec {
  client : schemaRegistryClient R;
  codecCache : gmap subjectVersionID (option (ptr (goavro_Codec V)));
  subjectNameStrategy : string -> bool -> string
}.
Arguments mkCodec {V R} _ _ _.
Arguments client {V R} c.
Arguments codecCache {V R} c.
Arguments subjectNameStrategy {V R} c.

Record Encoder (V : Type) : Type := mkEncoder {
  subjectVersion : Z;
  codec : option (goavro_Codec V)   (* [None]: the zero [goavro.Codec{}] *)
}.
Arguments mkEncoder {V} _ _.
Arguments subjectVersion {V} e.
Arguments codec {V} e.

(** How many times the schema lookup for [key] appears in a call log. *)
Definition schema_lookups (key : subjectVersionID) (log : list RegistryCall) : nat :=
  length (filter (fun c => c = CallGetSchemaFor key) log).
Arguments schema_lookups : simpl never.

(** ** The program *)

Section Program.

Context {V R : Type} {G : goavro V}.

(** [goavro.NewCodec]: a successful compilation allocates a new object. *)
Definition goavro_NewCodec (schema : string) (w : World R)
  : (option (ptr (goavro_Codec V)) * option error) * World R :=
  match goavro_compile schema with
  | (Some obj, err) =>
      ((Some (mkPtr (allocs w) obj), err),
       mkWorld (registry w) (calls w) (S (allocs w)))
  | (None, err) => ((None, err), w)
  end.

Definition call_GetVersionFor (cl : schemaRegistryClient R)
    (subj schema : string) (w : World R) : (Z * option error) * World R :=
  let '(res, r) := GetVersionFor cl subj schema (registry w) in
  (res, mkWorld r (CallGetVersionFor subj schema :: calls w) (allocs w)).

Definition call_GetSchemaFor (cl : schemaRegistryClient R)
    (key : subjectVersionID) (w : World R) : (string * option error) * World R :=
  let '(res, r) := GetSchemaFor cl key (registry w) in
  (res, mkWorld r (CallGetSchemaFor key :: calls w) (allocs w)).

Definition call_IsRegistered (cl : schemaregistry_Client R)
    (subj schema : string) (w : World R)
  : (bool * Schema * option error) * World R :=
  let '(res, r) := IsRegistered cl subj schema (registry w) in
  (res, mkWorld r (CallIsRegistered subj schema :: calls w) (allocs w)).

Definition call_RegisterNewSchema (cl : schemaregistry_Client R)
    (subj schema : string) (w : World R) : (Z * option error) * World R :=
  let '(res, r) := RegisterNewSchema cl subj schema (registry w) in
  (res, mkWorld r (CallRegisterNewSchema subj schema :: calls w) (allocs w)).

Definition NewCodec (cl : schemaRegistryClient R) : Codec V R :=
  mkCodec cl ∅ getTopicNameStrategy.

Definition extractSubjectAndVersionFromData
    (topic : string) (isKey : bool) (data : slice)
  : outcome (subjectVersionID * option error) :=
  match index data 0 with
  | Panics p => Panics p
  | Returns magicByte =>
      if negb (Byte.eqb magicByte Byte.x00)
      then Returns (mkSubjectVersionID "" 0,
                    Some (errors_New "Unknown magic byte"))
      else
        let subj := getTopicNameStrategy topic isKey in
        match reslice data 1 5 with
        | Panics p => Panics p
        | Returns field =>
            match getSchemaID field with
            | Panics p => Panics p
            | Returns version =>
                Returns (mkSubjectVersionID subj version, None)
            end
        end
  end.

Definition getCodecFor (key : subjectVersionID) (c : Codec V R) (w : World R)
  : (option (ptr (goavro_Codec V)) * option error) * Codec V R * World R :=
  match codecCache c !! key with
  | Some cached => ((cached, None), c, w)
  | None =>
      let '((schema, err), w1) := call_GetSchemaFor (client c) key w in
      match err with
      | Some e => ((None, Some e), c, w1)
      | None =>
          let '((compiled, err'), w2) := goavro_NewCodec schema w1 in
          match err' with
          | Some e => ((compiled, Some e), c, w2)
          | None =>
              ((compiled, None),
               mkCodec (client c) (<[key := compiled]> (codecCache c))
                       (subjectNameStrategy c),
               w2)
          end
      end
  end.

Definition Decode (topic : string) (isKey : bool) (data : slice)
    (c : Codec V R) (w : World R)
  : outcome (option V * option error) * Codec V R * World R :=
  match extractSubjectAndVersionFromData topic isKey data with
  | Panics p => (Panics p, c, w)
  | Returns (_, Some e) => (Returns (None, Some e), c, w)
  | Returns (key, None) =>
      let '((resolved, err), c1, w1) := getCodecFor key c w in
      match err with
      | Some e => (Returns (None, Some e), c1, w1)
      | None =>
          match reslice_from data 5 with
          | Panics p => (Panics p, c1, w1)
          | Returns payload =>
              match resolved with
              | None => (Panics NilPointerDereference, c1, w1)
              | Some p =>
                  let '(native, _, err') :=
                    NativeFromBinary (target p) (visible payload) in
                  (Returns (native, err'), c1, w1)
              end
          end
      end
  end.

Definition Encode (topic : string) (isKey : bool) (schema : string)
    (native : option V) (c : Codec V R) (w : World R)
  : outcome (list byte * option error) * Codec V R * World R :=
  let subj := getTopicNameStrategy topic isKey in
  let '((version, err), w1) := call_GetVersionFor (client c) subj schema w in
  match err with
  | Some e => (Returns ([], Some e), c, w1)
  | None =>
      let key := mkSubjectVersionID subj version in
      let '((resolved, err1), c2, w2) := getCodecFor key c w1 in
      match err1 with
      | Some e => (Returns ([], Some e), c2, w2)
      | None =>
          let magicByte := [Byte.x00] in
          let versionBytes := bytesForSchemaID (versionID key) in
          match resolved with
          | None => (Panics NilPointerDereference, c2, w2)
          | Some p =>
              let '(dataBytes, err2) :=
                BinaryFromNative (target p) [] native in
              match err2 with
              | Some e => (Returns ([], Some e), c2, w2)
              | None =>
                  (Returns (((magicByte ++ versionBytes) ++ dataBytes)%list, None),
                   c2, w2)
              end
          end
      end
  end.

Definition NewEncoder (cl : schemaregistry_Client R) (autoRegister : bool)
    (subjectName avroSchema : string) (w : World R)
  : outcome (Encoder V * option error) * World R :=
  let compile_and_bind (version : Z) (w0 : World R) :=
    let '((compiled, codecErr), w1) := goavro_NewCodec avroSchema w0 in
    match codecErr with
    | Some e => (Returns (mkEncoder 0 None, Some e), w1)
    | None =>
        match compiled with
        | None => (Panics NilPointerDereference, w1)
        | Some p => (Returns (mkEncoder version (Some (target p)), None), w1)
        end
    end in
  if autoRegister then
    let '((version, err), w1) :=
      call_RegisterNewSchema cl subjectName avroSchema w in
    match err with
    | Some e => (Returns (mkEncoder 0 None, Some e), w1)
    | None => compile_and_bind version w1
    end
  else
    let '((isRegistered, schema, clientErr), w1) :=
      call_IsRegistered cl subjectName avroSchema w in
    match clientErr with
    | Some e => (Returns (mkEncoder 0 None, Some e), w1)
    | None =>
        if negb isRegistered
        then (Returns (mkEncoder 0 None,
                       Some (errors_New
                               ("There is no registration on subject "
                                ++ subjectName ++ " for schema " ++ avroSchema))),
              w1)
        else compile_and_bind (Schema_Version schema) w1
    end.

(** [Encoder.Encode] *)
Definition Encoder_Encode (e : Encoder V) (native : option V)
  : outcome (list byte * option error) :=
  match codec e with
  | None => Panics NilPointerDereference
  | Some g => Returns (BinaryFromNative g [] native)
  end.

(** Calls made one after the other on one [Codec]; a panic is taken to be
    recovered by the caller, which goes on with the next call. *)
Inductive Op : Type :=
| OpDecode (topic : string) (isKey : bool) (data : slice)
| OpEncode (topic : string) (isKey : bool) (schema : string) (native : option V).

Definition step (o : Op) (s : Codec V R * World R) : Codec V R * World R :=
  match o with
  | OpDecode topic isKey data =>
      let '(_, c, w) := Decode topic isKey data (fst s) (snd s) in (c, w)
  | OpEncode topic isKey schema native =>
      let '(_, c, w) := Encode topic isKey schema native (fst s) (snd s) in (c, w)
  end.

Definition run (ops : list Op) (s : Codec V R * World R) : Codec V R * World R :=
  fold_left (fun s o => step o s) ops s.

End Program.

Arguments Op V : clear implicits.

(** ** Predicates used in the statements *)

(** The codec's decode inverts its encode. *)
Definition inverts {V : Type} (g : goavro_Codec V) : Prop :=
  forall (native : option V) (bs : list byte),
    BinaryFromNative g [] native = (bs, None) ->
    exists rest, NativeFromBinary g bs = (native, rest, None).

(** Resolving [key] against cache [c] and registry state [r] yields codec
    [g]: either an entry is there, or the fetch and the compile succeed. *)
Definition resolves_to {V R : Type} {G : goavro V}
    (c : Codec V R) (r : R) (key : subjectVersionID) (g : goavro_Codec V) : Prop :=
  (exists p, codecCache c !! key = Some (Some p) /\ target p = g)
  \/ (codecCache c !! key = None
      /\ exists text r', GetSchemaFor (client c) key r = ((text, None), r')
                         /\ goavro_compile text = (Some g, None)).

(** Resolving [key] fails with [e]: no entry, and the fetch fails with [e],
    or the fetch succeeds and the compile fails with [e]. *)
Definition resolution_fails {V R : Type} {G : goavro V}
    (c : Codec V R) (r : R) (key : subjectVersionID) (e : error) : Prop :=
  codecCache c !! key = None
  /\ exists text err r',
       GetSchemaFor (client c) key r = ((text, err), r')
       /\ (err = Some e
           \/ (err = None /\ snd (goavro_compile text) = Some e)).

(** Every way [getCodecFor] can end. *)
Inductive resolution {V R : Type} {G : goavro V}
    (key : subjectVersionID) (c : Codec V R) (w : World R)
  : option (ptr (goavro_Codec V)) -> option error -> Codec V R -> World R -> Prop :=
| res_hit cached :
    codecCache c !! key = Some cached ->
    resolution key c w cached None c w
| res_fetch_failed text e r' :
    codecCache c !! key = None ->
    GetSchemaFor (client c) key (registry w) = ((text, Some e), r') ->
    resolution key c w None (Some e) c
               (mkWorld r' (CallGetSchemaFor key :: calls w) (allocs w))
| res_compile_failed text e r' res w' :
    codecCache c !! key = None ->
    GetSchemaFor (client c) key (registry w) = ((text, None), r') ->
    snd (goavro_compile text) = Some e ->
    calls w' = CallGetSchemaFor key :: calls w ->
    registry w' = r' ->
    resolution key c w res (Some e) c w'
| res_stored text r' res w' :
    codecCache c !! key = None ->
    GetSchemaFor (client c) key (registry w) = ((text, None), r') ->
    snd (goavro_compile text) = None ->
    res = mkPtr (allocs w) <$> fst (goavro_compile text) ->
    calls w' = CallGetSchemaFor key :: calls w ->
    registry w' = r' ->
    resolution key c w res None
               (mkCodec (client c) (<[key := res]> (codecCache c))
                        (subjectNameStrategy c))
               w'.

(** [P] holds of every registry state the two calls of the client leave,
    if it held before. *)
Definition registry_invariant {R : Type}
    (cl : schemaRegistryClient R) (P : R -> Prop) : Prop :=
  (forall subj schema r, P r -> P (snd (GetVersionFor cl subj schema r)))
  /\ (forall key r, P r -> P (snd (GetSchemaFor cl key r))).

(** As long as the registry satisfies [P], it has the schema of [k], and the
    schema compiles. *)
Definition always_resolvable {V R : Type} {G : goavro V}
    (cl : schemaRegistryClient R) (P : R -> Prop) (k : subjectVersionID) : Prop :=
  registry_invariant cl P
  /\ forall r, P r ->
       exists text r',
         GetSchemaFor cl k r = ((text, None), r')
         /\ snd (goavro_compile text) = None.

(** The invariant behind the cache-hit property: at most one lookup of [k]
    so far, and none while [k] has no entry. *)
Definition looked_up_once {V R : Type}
    (cl : schemaRegistryClient R) (P : R -> Prop) (k : subjectVersionID)
    (s : Codec V R * World R) : Prop :=
  client (fst s) = cl
  /\ P (registry (snd s))
  /\ (schema_lookups k (calls (snd s)) <= 1)%nat
  /\ (codecCache (fst s) !! k = None -> schema_lookups k (calls (snd s)) = 0%nat).

(** ** A call-counting mock registry and a mock compiler *)

Module Mock.

(** The registry state: the registered schemas, oldest first. *)
Definition Registry : Type := list Schema.

Definition registered (subj text : string) (r : Registry) : option Schema :=
  List.find (fun s => bool_decide (Schema_Subject s = subj
                                   /\ Schema_Schema s = text)) r.

Definition at_version (key : subjectVersionID) (r : Registry) : option Schema :=
  List.find (fun s => bool_decide (Schema_Subject s = subject key
                                   /\ Schema_Version s = versionID key)) r.

Definition not_found : error := "schema not found".

Definition registry_client : schemaRegistryClient Registry :=
  mkSchemaRegistryClient
    (fun subj text r =>
       match registered subj text r with
       | Some s => ((Schema_Version s, None), r)
       | None => ((0, Some not_found), r)
       end)
    (fun key r =>
       match at_version key r with
       | Some s => ((Schema_Schema s, None), r)
       | None => (("", Some not_found), r)
       end).

Definition next_version (subj : string) (r : Registry) : Z :=
  1 + Z.of_nat (length (filter (fun s => Schema_Subject s = subj) r)).

Definition lenses_client : schemaregistry_Client Registry :=
  mkSchemaregistryClient
    (fun subj text r =>
       match registered subj text r with
       | Some s => ((Schema_Version s, None), r)
       | None =>
           let v := next_version subj r in
           ((v, None),
            (r ++ [mkSchema text subj v (1 + Z.of_nat (length r))])%list)
       end)
    (fun subj text r =>
       match registered subj text r with
       | Some s => ((true, s, None), r)
       | None => ((false, mkSchema "" "" 0 0, None), r)
       end).

(** Native values are byte strings; the one schema that compiles is [bytes],
    whose codec writes the value as it is. *)
Definition raw_codec : goavro_Codec (list byte) :=
  mkGoavroCodec
    (fun buf native =>
       match native with
       | Some v => ((buf ++ v)%list, None)
       | None => ([], Some "cannot encode nil")
       end)
    (fun buf => (Some buf, [], None)).

#[global] Instance compiler : goavro (list byte) :=
  {| goavro_compile text :=
       if String.eqb text "bytes" then (Some raw_codec, None)
       else (None, Some "unknown schema") |}.

Definition world (r : Registry) : World Registry := mkWorld r [] 0.

Definition fresh : Codec (list byte) Registry := NewCodec registry_client.

(** A strategy that ignores the key/value distinction. *)
Definition topic_only (topic : string) (isKey : bool) : string := topic.

Definition orders_value_v (n : Z) : Registry :=
  [mkSchema "bytes" "orders-value" n 1].

(** The subject [orders-value] with a schema text the compiler rejects. *)
Definition uncompilable : Registry := [mkSchema "none" "orders-value" 1 1].

Definition orders_v1 : subjectVersionID := mkSubjectVersionID "orders-value" 1.

(** Version 1, then the payload [07]. *)
Definition frame_v1 : list byte :=
  [Byte.x00; Byte.x00; Byte.x00; Byte.x00; Byte.x01; Byte.x07].

Definition decode_v1 : Op (list byte) :=
  OpDecode "orders" false (slice_of frame_v1).

Definition encode_07 : Op (list byte) :=
  OpEncode "orders" false "bytes" (Some [Byte.x07]).

(** A Codec that has decoded one frame of version 1. *)
Definition warm : Codec (list byte) Registry * World Registry :=
  run [decode_v1] (fresh, world (orders_value_v 1)).

(** A Codec configured with [topic_only], and a registry that has the schema
    under the subject that strategy gives. *)
Definition ignoring_key : Codec (list byte) Registry :=
  mkCodec registry_client ∅ topic_only.

Definition orders_only : Registry := [mkSchema "bytes" "orders" 1 1].

End Mock.

(** ** Notions used in the statements on frames *)

(** [bs] is the 4-byte big-endian unsigned encoding of [n]: four bytes that
    denote [n].  No four bytes encode a number outside [0, 2^32). *)
Definition encodes_u32 (bs : list byte) (n : Z) : Prop :=
  length bs = 4%nat /\ big_endian_value bs = n.

(** The Codec and the world a call leaves behind. *)
Definition state_after {A V R : Type} (x : A * Codec V R * World R)
  : Codec V R * World R :=
  (snd (fst x), snd x).

(** ** Conditions on the collaborators and on the cache *)



(** The calls of [schemaregistry.Client] that [NewEncoder] makes: the ones
    that ask about, or make, a registration. *)
Definition is_registration (call : RegistryCall) : bool :=
  match call with
  | CallIsRegistered _ _ | CallRegisterNewSchema _ _ => true
  | CallGetVersionFor _ _ | CallGetSchemaFor _ => false
  end.

(** The registration calls of a log, in order. *)
Definition registrations (log : list RegistryCall) : list RegistryCall :=
  filter (fun call => is_registration call = true) log.

(** Every cached codec object was allocated, and no two keys share one. *)
Definition objects_distinct {V R : Type} (s : Codec V R * World R) : Prop :=
  (forall k p, codecCache (fst s) !! k = Some (Some p) ->
               (addr p < allocs (snd s))%nat)
  /\ (forall k1 k2 p1 p2,
        codecCache (fst s) !! k1 = Some (Some p1) ->
        codecCache (fst s) !! k2 = Some (Some p2) ->
        addr p1 = addr p2 -> k1 = k2).

(** ** The example consumer (main.go) *)

Module Main.

Record schemaCacheKey : Type := mkSchemaCacheKey {
  subject : string;
  versionID : Z
}.

#[global] Instance schemaCacheKey_eq_dec : EqDecision schemaCacheKey.
Proof. solve_decision. Defined.

#[global] Instance schemaCacheKey_countable : Countable schemaCacheKey.
Proof.
  refine (inj_countable' (fun k => (subject k, versionID k))
                         (fun p => mkSchemaCacheKey (fst p) (snd p)) _).
  intros [s v]; reflexivity.
Defined.

(** The operation of [*schemaregistry.Client] the consumer uses. *)
Record Client (R : Type) : Type := mkClient {
  GetSchemaBySubject : string -> Z -> R -> (Schema * option error) * R
}.
Arguments mkClient {R} _.
Arguments GetSchemaBySubject {R} c subject versionID r.

(** The registry, and the [GetSchemaBySubject] calls made so far, most
    recent first. *)
Record World (R : Type) : Type := mkWorld {
  registry : R;
  lookups : list schemaCacheKey
}.
Arguments mkWorld {R} _ _.
Arguments registry {R} w.
Arguments lookups {R} w.

(** The map is a Go reference: the function's updates are the caller's, so
    the map is returned with the results. *)
Definition getSchemaBySubject {R : Type} (subj : string) (version : Z)
    (schemaCache : gmap schemaCacheKey string) (client : Client R) (w : World R)
  : (string * option error) * gmap schemaCacheKey string * World R :=
  let key := mkSchemaCacheKey subj version in
  match schemaCache !! key with
  | Some schema => ((schema, None), schemaCache, w)
  | None =>
      let '((avroSchema, err), r) :=
        GetSchemaBySubject client subj version (registry w) in
      let w1 := mkWorld r (key :: lookups w) in
      match err with
      | Some e => (("", Some e), schemaCache, w1)
      | None =>
          let schema := Schema_Schema avroSchema in
          ((schema, None), <[key := schema]> schemaCache, w1)
      end
  end.

Definition getSchemaID (data : slice) : outcome Z :=
  match BigEndian_Uint32 data with
  | Returns u => Returns (GoInt.int u)
  | Panics p => Panics p
  end.

Definition getSubject (topic : string) : string := topic ++ "-value".

End Main.

(** ** More mocks *)

Module Demo.

(** [GetSchemaBySubject] on the mock registry of [Mock]. *)
Definition client : Main.Client Mock.Registry :=
  Main.mkClient
    (fun subj version r =>
       match Mock.at_version (mkSubjectVersionID subj version) r with
       | Some s => ((s, None), r)
       | None => ((mkSchema "" "" 0 0, Some Mock.not_found), r)
       end).

Definition world (r : Mock.Registry) : Main.World Mock.Registry :=
  Main.mkWorld r [].

Definition orders_v1 : Main.schemaCacheKey :=
  Main.mkSchemaCacheKey "orders-value" 1.

(** A schema cache that has the schema of [orders_v1]. *)
Definition cached_v1 : gmap Main.schemaCacheKey string := {[ orders_v1 := "bytes" ]}.

(** An Encoder bound to version 3 and the raw codec. *)
Definition encoder_v3 : Encoder (list byte) := mkEncoder 3 (Some Mock.raw_codec).

End Demo.

(** ** Arithmetic of the version field *)

Section VersionField.

Lemma of_byte_range b : 0 <= GoInt.of_byte b < 256.
Proof.
  unfold GoInt.of_byte.
  pose proof (Byte.to_N_bounded b) as Hb. lia.
Qed.

Lemma of_byte_byte_of x : GoInt.of_byte (GoInt.byte_of x) = x mod 256.
Proof.
  unfold GoInt.of_byte, GoInt.byte_of.
  assert (Hr : 0 <= x mod 256 < 256) by (apply Z.mod_pos_bound; lia).
  destruct (Byte.of_N (Z.to_N (x mod 256))) as [b|] eqn:E; simpl.
  - apply Byte.to_of_N in E. rewrite E. lia.
  - apply Byte.of_N_None_iff in E. lia.
Qed.

Lemma lor_shiftl_add a b n :
  0 <= n -> 0 <= a < 2 ^ n -> Z.lor a (Z.shiftl b n) = a + b * 2 ^ n.
Proof.
  intros Hn Ha.
  assert (Hland : Z.land a (Z.shiftl b n) = 0).
  { apply Z.bits_inj'. intros i Hi.
    rewrite Z.land_spec, Z.bits_0.
    destruct (Z.lt_ge_cases i n) as [Hlt|Hge].
    - rewrite (Z.shiftl_spec_low b n i Hlt). apply andb_false_r.
    - replace a with (a mod 2 ^ n) by (apply Z.mod_small; lia).
      rewrite Z.mod_pow2_bits_high by lia. reflexivity. }
  rewrite <- Z.lxor_lor by exact Hland.
  rewrite <- Z.add_nocarry_lxor by exact Hland.
  rewrite Z.shiftl_mul_pow2 by lia. reflexivity.
Qed.

Lemma Uint32_value b0 b1 b2 b3 sp rest :
  BigEndian_Uint32 (mkSlice (b0 :: b1 :: b2 :: b3 :: rest) sp)
  = Returns (big_endian_value [b0; b1; b2; b3]).
Proof.
  unfold BigEndian_Uint32, big_endian_value; simpl.
  pose proof (of_byte_range b0). pose proof (of_byte_range b1).
  pose proof (of_byte_range b2). pose proof (of_byte_range b3).
  rewrite (lor_shiftl_add _ _ 8) by lia.
  rewrite (lor_shiftl_add _ _ 16) by lia.
  rewrite (lor_shiftl_add _ _ 24) by lia.
  f_equal. lia.
Qed.

Lemma big_endian_value_range b0 b1 b2 b3 :
  GoInt.in_uint32 (big_endian_value [b0; b1; b2; b3]).
Proof.
  unfold GoInt.in_uint32, big_endian_value; simpl.
  pose proof (of_byte_range b0). pose proof (of_byte_range b1).
  pose proof (of_byte_range b2). pose proof (of_byte_range b3). lia.
Qed.

Lemma int_of_uint32 u : GoInt.in_uint32 u -> GoInt.int u = u.
Proof.
  unfold GoInt.in_uint32, GoInt.int. intros Hu.
  rewrite Z.mod_small; lia.
Qed.

Lemma PutUint32_big_endian u : BigEndian_PutUint32 u = big_endian_u32 u.
Proof.
  unfold BigEndian_PutUint32, big_endian_u32.
  rewrite !Z.shiftr_div_pow2 by lia. reflexivity.
Qed.

Lemma big_endian_value_u32 u :
  GoInt.in_uint32 u -> big_endian_value (big_endian_u32 u) = u.
Proof.
  unfold GoInt.in_uint32, big_endian_value, big_endian_u32. intros Hu. simpl.
  rewrite !of_byte_byte_of.
  change (2 ^ 24) with 16777216. change (2 ^ 16) with 65536.
  change (2 ^ 8) with 256. change (2 ^ 32) with 4294967296 in Hu.
  Z.div_mod_to_equations. lia.
Qed.

Lemma uint32_range v : GoInt.in_uint32 (GoInt.uint32 v).
Proof. unfold GoInt.in_uint32, GoInt.uint32. apply Z.mod_pos_bound. lia. Qed.

Lemma getSchemaID_bytesForSchemaID v sp :
  getSchemaID (mkSlice (bytesForSchemaID v) sp) = Returns (GoInt.uint32 v).
Proof.
  pose proof (uint32_range v) as Hu.
  unfold getSchemaID, bytesForSchemaID.
  rewrite PutUint32_big_endian.
  unfold big_endian_u32 at 1. rewrite Uint32_value.
  change [GoInt.byte_of (GoInt.uint32 v / 2 ^ 24);
          GoInt.byte_of (GoInt.uint32 v / 2 ^ 16);
          GoInt.byte_of (GoInt.uint32 v / 2 ^ 8);
          GoInt.byte_of (GoInt.uint32 v)]
    with (big_endian_u32 (GoInt.uint32 v)).
  rewrite (big_endian_value_u32 _ Hu).
  f_equal. apply int_of_uint32, Hu.
Qed.

End VersionField.

(** ** The resolution cache *)

Section Resolution.

Context {V R : Type} {G : goavro V}.

Implicit Types (c : Codec V R) (w : World R) (key : subjectVersionID).

Lemma getCodecFor_hit key c w cached :
  codecCache c !! key = Some cached ->
  getCodecFor key c w = ((cached, None), c, w).
Proof. intros H. unfold getCodecFor. rewrite H. reflexivity. Qed.

Lemma getCodecFor_fetch_fails key c w text e r' :
  codecCache c !! key = None ->
  GetSchemaFor (client c) key (registry w) = ((text, Some e), r') ->
  getCodecFor key c w
  = ((None, Some e), c, mkWorld r' (CallGetSchemaFor key :: calls w) (allocs w)).
Proof.
  intros Hmiss Hfetch. unfold getCodecFor, call_GetSchemaFor.
  rewrite Hmiss, Hfetch. reflexivity.
Qed.

Lemma getCodecFor_compile_fails key c w text e r' :
  codecCache c !! key = None ->
  GetSchemaFor (client c) key (registry w) = ((text, None), r') ->
  snd (goavro_compile text) = Some e ->
  exists res w', getCodecFor key c w = ((res, Some e), c, w').
Proof.
  intros Hmiss Hfetch Hcomp. unfold getCodecFor, call_GetSchemaFor.
  rewrite Hmiss, Hfetch. cbn -[goavro_compile]. unfold goavro_NewCodec.
  destruct (goavro_compile text) as [[obj|] err]; simpl in Hcomp; subst err;
    cbn; eauto.
Qed.

Lemma getCodecFor_stores key c w text g r' :
  codecCache c !! key = None ->
  GetSchemaFor (client c) key (registry w) = ((text, None), r') ->
  goavro_compile text = (Some g, None) ->
  getCodecFor key c w
  = ((Some (mkPtr (allocs w) g), None),
     mkCodec (client c) (<[key := Some (mkPtr (allocs w) g)]> (codecCache c))
             (subjectNameStrategy c),
     mkWorld r' (CallGetSchemaFor key :: calls w) (S (allocs w))).
Proof.
  intros Hmiss Hfetch Hcomp. unfold getCodecFor, call_GetSchemaFor.
  rewrite Hmiss, Hfetch. cbn -[goavro_compile]. unfold goavro_NewCodec.
  rewrite Hcomp. reflexivity.
Qed.

Lemma getCodecFor_resolution key c w :
  let '((res, err), c', w') := getCodecFor key c w in
  resolution key c w res err c' w'.
Proof.
  unfold getCodecFor, call_GetSchemaFor.
  destruct (codecCache c !! key) as [cached|] eqn:Hc.
  { by apply res_hit. }
  destruct (GetSchemaFor (client c) key (registry w)) as [[text ferr] r'] eqn:Hf.
  destruct ferr as [e|]; cbn -[goavro_compile].
  { by eapply res_fetch_failed. }
  unfold goavro_NewCodec.
  destruct (goavro_compile text) as [[obj|] [e|]] eqn:Hg; cbn.
  - eapply res_compile_failed; eauto. by rewrite Hg.
  - eapply res_stored; eauto; by rewrite Hg.
  - eapply res_compile_failed; eauto. by rewrite Hg.
  - eapply res_stored; eauto; by rewrite Hg.
Qed.

Lemma getCodecFor_inv key c w res err c' w' :
  getCodecFor key c w = ((res, err), c', w') ->
  resolution key c w res err c' w'.
Proof.
  intros H. pose proof (getCodecFor_resolution key c w) as Hr.
  rewrite H in Hr. exact Hr.
Qed.

Lemma schema_lookups_cons_same key log :
  schema_lookups key (CallGetSchemaFor key :: log) = S (schema_lookups key log).
Proof.
  unfold schema_lookups. rewrite filter_cons_True by reflexivity. reflexivity.
Qed.

Lemma schema_lookups_cons_other key call log :
  call <> CallGetSchemaFor key ->
  schema_lookups key (call :: log) = schema_lookups key log.
Proof.
  intros Hne. unfold schema_lookups. by rewrite filter_cons_False.
Qed.

(** A resolution keeps the client and the strategy, keeps every entry that
    was there, and looks a key up in the registry only when it misses it. *)
Lemma resolution_frame key c w res err c' w' :
  resolution key c w res err c' w' ->
  client c' = client c
  /\ subjectNameStrategy c' = subjectNameStrategy c
  /\ (forall k cached, codecCache c !! k = Some cached ->
                       codecCache c' !! k = Some cached)
  /\ (forall k, k <> key ->
        codecCache c' !! k = codecCache c !! k
        /\ schema_lookups k (calls w') = schema_lookups k (calls w))
  /\ (is_Some (codecCache c !! key) ->
        schema_lookups key (calls w') = schema_lookups key (calls w))
  /\ (codecCache c !! key = None ->
        schema_lookups key (calls w') = S (schema_lookups key (calls w))).
Proof.
  assert (Hother : forall k log, k <> key ->
            schema_lookups k (CallGetSchemaFor key :: log) = schema_lookups k log).
  { intros k log Hne. apply schema_lookups_cons_other. congruence. }
  destruct 1 as [cached Hc | text e r' Hc Hf | text e r' res w' Hc Hf Hg Hl Hr
                | text r' res w' Hc Hf Hg Hres Hl Hr]; cbn; rewrite ?Hl;
    (split_and!;
     [ reflexivity
     | reflexivity
     | intros k cached0 Hk;
       try (rewrite lookup_insert_ne; [|congruence]); exact Hk
     | intros k Hne; split;
       [ try (rewrite lookup_insert_ne; [|congruence]); reflexivity
       | try rewrite (Hother k _ Hne); reflexivity ]
     | intros [x Hx]; first [reflexivity | congruence]
     | intros Hk; first [apply schema_lookups_cons_same | congruence] ]).
Qed.

Lemma resolution_registry key c w res err c' w' :
  resolution key c w res err c' w' ->
  registry w' = registry w
  \/ registry w' = snd (GetSchemaFor (client c) key (registry w)).
Proof.
  destruct 1 as [cached Hc | text e r' Hc Hf | text e r' res w' Hc Hf Hg Hl Hr
                | text r' res w' Hc Hf Hg Hres Hl Hr];
    [by left | right; cbn | right | right]; by rewrite Hf.
Qed.

End Resolution.

(** ** Frames *)

Section Frames.

Context {V R : Type} {G : goavro V}.

Implicit Types (c : Codec V R) (w : World R) (key : subjectVersionID).

Lemma reslice_from_ok d lo :
  (lo <= len d)%nat ->
  reslice_from d lo = Returns (mkSlice (drop lo (visible d)) (spare d)).
Proof.
  intros Hlo. unfold reslice_from, reslice, cap, backing, len in *.
  assert (Hb : ((lo <=? length (visible d))%nat
                && (length (visible d) <=? length (visible d) + length (spare d))%nat)%bool
               = true).
  { apply andb_true_iff. split; apply Nat.leb_le; lia. }
  rewrite Hb. f_equal. f_equal.
  - rewrite drop_app_le by lia.
    apply take_app_length'. rewrite length_drop. reflexivity.
  - apply drop_app_length.
Qed.

Lemma extract_header topic isKey b0 b1 b2 b3 payload sp :
  extractSubjectAndVersionFromData topic isKey
    (mkSlice (Byte.x00 :: b0 :: b1 :: b2 :: b3 :: payload) sp)
  = match getSchemaID (mkSlice [b0; b1; b2; b3] (payload ++ sp)) with
    | Panics p => Panics p
    | Returns version =>
        Returns (mkSubjectVersionID (getTopicNameStrategy topic isKey) version,
                 None)
    end.
Proof. reflexivity. Qed.

Lemma extract_frame topic isKey version payload sp :
  extractSubjectAndVersionFromData topic isKey
    (mkSlice (([Byte.x00] ++ bytesForSchemaID version) ++ payload) sp)
  = Returns (mkSubjectVersionID (getTopicNameStrategy topic isKey)
                                (GoInt.uint32 version), None).
Proof.
  pose proof (getSchemaID_bytesForSchemaID version (payload ++ sp)) as Hid.
  unfold bytesForSchemaID, BigEndian_PutUint32 in *.
  cbn [app]. rewrite extract_header, Hid. reflexivity.
Qed.

Lemma extract_bad_magic topic isKey b rest sp :
  b <> Byte.x00 ->
  extractSubjectAndVersionFromData topic isKey (mkSlice (b :: rest) sp)
  = Returns (mkSubjectVersionID "" 0, Some (errors_New "Unknown magic byte")).
Proof.
  intros Hb. unfold extractSubjectAndVersionFromData, index. cbn.
  destruct (Byte.eqb b Byte.x00) eqn:E; [|reflexivity].
  apply Byte.byte_dec_bl in E. contradiction.
Qed.

(** Whenever the header is accepted, the key carries the subject the default
    strategy gives. *)
Lemma extract_subject topic isKey data key :
  extractSubjectAndVersionFromData topic isKey data = Returns (key, None) ->
  subject key = getTopicNameStrategy topic isKey.
Proof.
  unfold extractSubjectAndVersionFromData.
  destruct (index data 0) as [m|]; [|discriminate].
  destruct (negb (Byte.eqb m Byte.x00)); [discriminate|].
  destruct (reslice data 1 5) as [field|]; [|discriminate].
  destruct (getSchemaID field); [|discriminate].
  intros [= <-]. reflexivity.
Qed.

End Frames.

(** ** Encode and Decode, step by step *)

Section WireFormatCodec.

Context {V R : Type} {G : goavro V}.

Implicit Types (c : Codec V R) (w : World R) (key : subjectVersionID).

Lemma resolution_cached key c w res c' w' :
  resolution key c w res None c' w' -> codecCache c' !! key = Some res.
Proof.
  inversion 1; subst; cbn.
  - assumption.
  - apply lookup_insert_eq.
Qed.

Lemma resolves_to_getCodecFor c w key g :
  resolves_to c (registry w) key g ->
  exists p c' w',
    getCodecFor key c w = ((Some p, None), c', w')
    /\ target p = g
    /\ codecCache c' !! key = Some (Some p).
Proof.
  intros [(p & Hp & Ht) | (Hmiss & text & r' & Hf & Hg)].
  - exists p, c, w. by rewrite (getCodecFor_hit _ _ _ _ Hp).
  - eexists _, _, _. rewrite (getCodecFor_stores _ _ _ _ _ _ Hmiss Hf Hg).
    split_and!; [reflexivity | reflexivity |]. cbn. apply lookup_insert_eq.
Qed.

Lemma Encode_succeeds topic isKey schema native c w version r1 g payload :
  GetVersionFor (client c) (getTopicNameStrategy topic isKey) schema (registry w)
  = ((version, None), r1) ->
  resolves_to c r1 (mkSubjectVersionID (getTopicNameStrategy topic isKey) version) g ->
  BinaryFromNative g [] native = (payload, None) ->
  exists p c' w',
    Encode topic isKey schema native c w
    = (Returns ((([Byte.x00] ++ bytesForSchemaID version) ++ payload)%list, None),
       c', w')
    /\ target p = g
    /\ codecCache c' !!
         mkSubjectVersionID (getTopicNameStrategy topic isKey) version
       = Some (Some p).
Proof.
  intros Hver Hres Henc.
  unfold Encode, call_GetVersionFor. rewrite Hver. cbn zeta iota beta.
  set (w1 := mkWorld r1 _ _).
  destruct (resolves_to_getCodecFor c w1 _ g Hres) as (p & c' & w' & Hget & Ht & Hc).
  rewrite Hget. cbn zeta iota beta. rewrite Ht, Henc.
  exists p, c', w'. split_and!; [reflexivity | assumption | assumption].
Qed.

Lemma Encode_inv topic isKey schema native c w data err c' w' :
  Encode topic isKey schema native c w = (Returns (data, err), c', w') ->
  exists version verr r1,
    GetVersionFor (client c) (getTopicNameStrategy topic isKey) schema (registry w)
    = ((version, verr), r1)
    /\ match err with
       | Some _ => data = []
       | None =>
           verr = None
           /\ exists p payload,
                codecCache c' !!
                  mkSubjectVersionID (getTopicNameStrategy topic isKey) version
                = Some (Some p)
                /\ BinaryFromNative (target p) [] native = (payload, None)
                /\ data = (([Byte.x00] ++ bytesForSchemaID version) ++ payload)%list
       end.
Proof.
  unfold Encode, call_GetVersionFor.
  destruct (GetVersionFor _ _ _ _) as [[version verr] r1].
  cbn zeta iota beta. intros H. exists version, verr, r1. split; [reflexivity|].
  destruct verr as [e|].
  { injection H as <- <- _ _. reflexivity. }
  set (w1 := mkWorld r1 _ _) in H.
  destruct (getCodecFor _ c w1) as [[[res rerr] c2] w2] eqn:Hget.
  apply getCodecFor_inv in Hget.
  destruct rerr as [e|].
  { injection H as <- <- _ _. reflexivity. }
  apply resolution_cached in Hget.
  destruct res as [p|]; [|discriminate].
  destruct (BinaryFromNative (target p) [] native) as [payload eerr] eqn:Henc.
  destruct eerr as [e|].
  { injection H as <- <- _ _. reflexivity. }
  injection H as <- <- <- <-. split; [reflexivity|].
  exists p, payload. split_and!; [assumption | assumption | reflexivity].
Qed.

Lemma Decode_frame topic isKey version payload sp c w p native rest err :
  codecCache c !! mkSubjectVersionID (getTopicNameStrategy topic isKey)
                                      (GoInt.uint32 version)
  = Some (Some p) ->
  NativeFromBinary (target p) payload = (native, rest, err) ->
  Decode topic isKey
         (mkSlice (([Byte.x00] ++ bytesForSchemaID version) ++ payload) sp) c w
  = (Returns (native, err), c, w).
Proof.
  intros Hc Hdec. unfold Decode.
  rewrite extract_frame, (getCodecFor_hit _ _ _ _ Hc).
  rewrite reslice_from_ok.
  2:{ unfold len, bytesForSchemaID, BigEndian_PutUint32. cbn. lia. }
  unfold bytesForSchemaID, BigEndian_PutUint32. cbn [app visible drop].
  rewrite drop_0, Hdec. reflexivity.
Qed.

Lemma Decode_bad_magic topic isKey b rest sp c w :
  b <> Byte.x00 ->
  Decode topic isKey (mkSlice (b :: rest) sp) c w
  = (Returns (None, Some (errors_New "Unknown magic byte")), c, w).
Proof.
  intros Hb. unfold Decode. rewrite (extract_bad_magic _ _ _ _ _ Hb). reflexivity.
Qed.

End WireFormatCodec.

(** ** Sequences of calls on one Codec *)

Section Sequences.

Context {V R : Type} {G : goavro V}.

Implicit Types (c : Codec V R) (w : World R) (key : subjectVersionID)
  (o : Op V) (ops : list (Op V)).

(** A call does at most one resolution, after registry calls that are not
    schema lookups. *)
Lemma step_shape o c w :
  exists w1,
    (forall k, schema_lookups k (calls w1) = schema_lookups k (calls w))
    /\ (registry w1 = registry w
        \/ exists subj schema,
             registry w1 = snd (GetVersionFor (client c) subj schema (registry w)))
    /\ (step o (c, w) = (c, w1)
        \/ exists key res err c' w',
             getCodecFor key c w1 = ((res, err), c', w')
             /\ step o (c, w) = (c', w')).
Proof.
  destruct o as [topic isKey data | topic isKey schema native]; cbn [step fst snd].
  - exists w. split; [reflexivity|]. split; [by left|]. unfold Decode.
    destruct (extractSubjectAndVersionFromData topic isKey data)
      as [[key [e|]]|p]; [by left | | by left].
    right. destruct (getCodecFor key c w) as [[[res err] c1] w1] eqn:Hget.
    exists key, res, err, c1, w1. split; [exact Hget|].
    destruct err; [reflexivity|].
    destruct (reslice_from data 5); [|reflexivity].
    destruct res as [p|]; [|reflexivity].
    destruct (NativeFromBinary (target p) _) as [[? ?] ?]. reflexivity.
  - unfold Encode, call_GetVersionFor.
    destruct (GetVersionFor _ _ _ _) as [[version verr] r1] eqn:Hver.
    cbn zeta iota beta.
    set (w1 := mkWorld r1 _ _). exists w1. split.
    { intros k. apply schema_lookups_cons_other. discriminate. }
    split.
    { right. eexists _, _. rewrite Hver. reflexivity. }
    destruct verr as [e|]; [by left|]. right.
    destruct (getCodecFor _ c w1) as [[[res err] c2] w2] eqn:Hget.
    eexists _, res, err, c2, w2. split; [exact Hget|].
    destruct err; [reflexivity|].
    destruct res as [p|]; [|reflexivity].
    destruct (BinaryFromNative (target p) [] native) as [? [?|]]; reflexivity.
Qed.

Lemma step_keeps_entry o c w k cached :
  codecCache c !! k = Some cached ->
  codecCache (fst (step o (c, w))) !! k = Some cached
  /\ schema_lookups k (calls (snd (step o (c, w)))) = schema_lookups k (calls w).
Proof.
  intros Hk.
  destruct (step_shape o c w)
    as (w1 & Hw1 & _ & [-> | (key & res & err & c' & w' & Hget & ->)]);
    cbn [fst snd].
  { split; [assumption | apply Hw1]. }
  apply getCodecFor_inv, resolution_frame in Hget.
  destruct Hget as (_ & _ & Hmono & Hother & Hhit & _).
  split; [by apply Hmono|]. rewrite <- Hw1.
  destruct (decide (k = key)) as [->|Hne].
  - apply Hhit. by eexists.
  - by apply Hother.
Qed.

Lemma run_keeps_entry ops c w k cached :
  codecCache c !! k = Some cached ->
  codecCache (fst (run ops (c, w))) !! k = Some cached
  /\ schema_lookups k (calls (snd (run ops (c, w)))) = schema_lookups k (calls w).
Proof.
  revert c w. induction ops as [|o ops IH]; intros c w Hk; [by split|].
  change (run (o :: ops) (c, w)) with (run ops (step o (c, w))).
  destruct (step_keeps_entry o c w k cached Hk) as [Hc Hl].
  destruct (step o (c, w)) as [c1 w1]; cbn [fst snd] in *.
  destruct (IH c1 w1 Hc) as [Hc' Hl'].
  split; [exact Hc' | congruence].
Qed.

Lemma step_looked_up_once cl P k o (s : Codec V R * World R) :
  always_resolvable cl P k ->
  looked_up_once cl P k s -> looked_up_once cl P k (step o s).
Proof.
  intros [[HPv HPs] Hok] (Hcl & HP & Hle & Hnone).
  destruct s as [c w]; cbn [fst snd] in *.
  destruct (step_shape o c w)
    as (w1 & Hw1 & Hr1 & [-> | (key & res & err & c' & w' & Hget & ->)]).
  all: assert (HP1 : P (registry w1))
    by (destruct Hr1 as [-> | (subj & schema & ->)];
        [exact HP | rewrite Hcl; by apply HPv]).
  { unfold looked_up_once; cbn [fst snd]. by rewrite Hw1. }
  apply getCodecFor_inv in Hget.
  pose proof (resolution_frame _ _ _ _ _ _ _ Hget)
    as (Hclient & _ & Hmono & Hother & Hhit & Hmiss).
  unfold looked_up_once; cbn [fst snd]. split; [congruence|]. split.
  { destruct (resolution_registry _ _ _ _ _ _ _ Hget) as [-> | ->];
      [exact HP1 | rewrite Hcl; by apply HPs]. }
  destruct (decide (k = key)) as [<-|Hne].
  2:{ destruct (Hother k Hne) as [-> ->]. by rewrite Hw1. }
  destruct (codecCache c !! k) as [cached|] eqn:Hk.
  { rewrite Hhit by (by eexists). rewrite Hw1. split; [exact Hle|].
    intros Hc'. rewrite (Hmono _ _ Hk) in Hc'. discriminate. }
  rewrite (Hmiss eq_refl), Hw1, (Hnone eq_refl).
  split; [lia|]. intros Hc'. exfalso.
  destruct (Hok (registry w1) HP1) as (text & r' & Hf & Hg). rewrite <- Hcl in Hf.
  inversion Hget; subst; try congruence.
  cbn in Hc'. rewrite lookup_insert_eq in Hc'. discriminate.
Qed.

Lemma run_looked_up_once cl P k ops (s : Codec V R * World R) :
  always_resolvable cl P k ->
  looked_up_once cl P k s -> looked_up_once cl P k (run ops s).
Proof.
  intros Hok. revert s. induction ops as [|o ops IH]; intros s Hs; [exact Hs|].
  change (run (o :: ops) s) with (run ops (step o s)).
  apply IH. by apply step_looked_up_once.
Qed.

End Sequences.

(** ** Properties of the framing *)

Section FramingClaims.

Context {V R : Type} {G : goavro V}.

Implicit Types (c : Codec V R) (w : World R).

(** C1 (as the code has it, where the claim fails): [Decode] has no length
    check.  On an empty input the read of byte 0 panics with an index out of
    range; on an input that starts with a zero byte and whose backing array
    holds fewer than five bytes the re-slice [data[1:5]] panics.  Neither
    returns an error; the Codec and the registry are left as they were. *)
Theorem Decode_short_input_panics topic isKey c w :
  (forall sp,
     Decode topic isKey (mkSlice [] sp) c w = (Panics IndexOutOfRange, c, w))
  /\ (forall rest sp,
        (length rest + length sp < 4)%nat ->
        Decode topic isKey (mkSlice (Byte.x00 :: rest) sp) c w
        = (Panics SliceBoundsOutOfRange, c, w)).
Proof.
  split.
  - intros sp. reflexivity.
  - intros rest sp Hshort.
    unfold Decode, extractSubjectAndVersionFromData, index, reslice, cap.
    cbn [visible spare lookup list_lookup negb Byte.eqb length].
    change (negb (Byte.eqb Byte.x00 Byte.x00)) with false. cbn iota.
    destruct (Nat.leb_spec 5 (S (length rest) + length sp)) as [Hge|Hlt];
      [lia|].
    cbn [Nat.leb andb]. reflexivity.
Qed.

(** C2 (amended): when byte 0 of the input is non-zero, [Decode] returns no
    value and the fixed error [Unknown magic byte], whatever the remaining
    bytes are; the Codec (hence its cache) and the world (hence the registry
    and the log of calls to it) are returned unchanged. *)
Theorem Decode_rejects_nonzero_magic topic isKey b rest sp c w :
  b <> Byte.x00 ->
  Decode topic isKey (mkSlice (b :: rest) sp) c w
  = (Returns (None, Some (errors_New "Unknown magic byte")), c, w).
Proof. apply Decode_bad_magic. Qed.

(** C8: the default strategy appends [-key] for a key and [-value] for a
    value to the topic; it is a function of [(topic, isKey)] alone.  Both
    paths use it.  [Decode], on any input of at least five bytes that starts
    with [0x00], leaves the Codec and the world as the resolution of the key
    whose subject is that of the strategy leaves them.  [Encode] asks the
    registry for the version under that subject and, when the registry
    answers, leaves the Codec and the world as the resolution of the key of
    that subject leaves them.  Across the paths: the key under which a
    successful [Encode] has its codec in the cache and the key [Decode]
    resolves for the frame it returned, on any Codec, carry the same
    subject. *)
Theorem subject_naming_is_consistent topic isKey :
  getTopicNameStrategy topic true = topic ++ "-key"
  /\ getTopicNameStrategy topic false = topic ++ "-value"
  /\ (forall b0 b1 b2 b3 payload sp c w,
        state_after
          (Decode topic isKey
                  (mkSlice (Byte.x00 :: b0 :: b1 :: b2 :: b3 :: payload) sp) c w)
        = state_after
            (getCodecFor
               (mkSubjectVersionID (getTopicNameStrategy topic isKey)
                                   (big_endian_value [b0; b1; b2; b3])) c w))
  /\ (forall schema native c w,
        state_after (Encode topic isKey schema native c w)
        = let '((version, err), w1) :=
            call_GetVersionFor (client c) (getTopicNameStrategy topic isKey)
                               schema w in
          match err with
          | Some _ => (c, w1)
          | None =>
              state_after
                (getCodecFor
                   (mkSubjectVersionID (getTopicNameStrategy topic isKey) version)
                   c w1)
          end)
  /\ (forall schema native c w frame c' w',
        Encode topic isKey schema native c w = (Returns (frame, None), c', w') ->
        exists version p,
          codecCache c' !!
            mkSubjectVersionID (getTopicNameStrategy topic isKey) version
          = Some (Some p)
          /\ forall sp (d : Codec V R) (w2 : World R),
               state_after (Decode topic isKey (mkSlice frame sp) d w2)
               = state_after
                   (getCodecFor
                      (mkSubjectVersionID (getTopicNameStrategy topic isKey)
                                          (version mod 2 ^ 32)) d w2)).
Proof.
  assert (Hdec : forall data key (d : Codec V R) (w2 : World R),
             extractSubjectAndVersionFromData topic isKey data
             = Returns (key, None) ->
             state_after (Decode topic isKey data d w2)
             = state_after (getCodecFor key d w2)).
  { intros data key d w2 Hx. unfold Decode. rewrite Hx.
    destruct (getCodecFor key d w2) as [[[res [e|]] c1] w1]; [reflexivity|].
    destruct (reslice_from data 5); [|reflexivity].
    destruct res as [p|]; [|reflexivity].
    destruct (NativeFromBinary (target p) _) as [[? ?] ?]. reflexivity. }
  split_and!; [reflexivity | reflexivity | | |].
  - intros b0 b1 b2 b3 payload sp c w. apply Hdec.
    rewrite extract_header. unfold getSchemaID. rewrite Uint32_value.
    rewrite int_of_uint32 by apply big_endian_value_range. reflexivity.
  - intros schema native c w. unfold Encode.
    destruct (call_GetVersionFor _ _ _ _) as [[version [e|]] w1];
      [reflexivity|].
    destruct (getCodecFor _ c w1) as [[[res [e|]] c2] w2]; [reflexivity|].
    destruct res as [p|]; [|reflexivity].
    destruct (BinaryFromNative (target p) [] native) as [payload [e|]];
      reflexivity.
  - intros schema native c w frame c' w' Henc. apply Encode_inv in Henc.
    destruct Henc as (version & verr & r1 & _ & _ & p & payload & Hc & _ & ->).
    exists version, p. split; [exact Hc|].
    intros sp d w2. apply Hdec. apply extract_frame.
Qed.

(** C10: the version field is the registry's version reduced modulo [2^32].
    [bytesForSchemaID v] is the big-endian encoding of [v mod 2^32], and
    [getSchemaID] reads it back as [v mod 2^32]: that is [v] when
    [0 <= v < 2^32] and differs from [v] otherwise.  [Encode] makes no range
    check: whenever the registry returns a version [v], in range or not, and
    the key resolves to a codec that serializes the value, [Encode] returns
    a frame without error, whose version field is [bytesForSchemaID v]; the
    decode path reads that frame as the key of version [v mod 2^32], another
    version when [v] is out of range.  Every frame [Encode] returns is read
    so. *)
Theorem version_field_wraps_mod_2_32 :
  (forall v sp,
     getSchemaID (mkSlice (bytesForSchemaID v) sp) = Returns (v mod 2 ^ 32))
  /\ (forall v, bytesForSchemaID v = big_endian_u32 (v mod 2 ^ 32))
  /\ (forall v sp,
        0 <= v < 2 ^ 32 ->
        getSchemaID (mkSlice (bytesForSchemaID v) sp) = Returns v)
  /\ (forall v sp,
        ~ (0 <= v < 2 ^ 32) ->
        getSchemaID (mkSlice (bytesForSchemaID v) sp) <> Returns v)
  /\ (forall topic isKey schema native c w version r1 g payload sp,
        GetVersionFor (client c) (getTopicNameStrategy topic isKey) schema
                      (registry w) = ((version, None), r1) ->
        resolves_to c r1
          (mkSubjectVersionID (getTopicNameStrategy topic isKey) version) g ->
        BinaryFromNative g [] native = (payload, None) ->
        exists c' w',
          Encode topic isKey schema native c w
          = (Returns ((Byte.x00 :: bytesForSchemaID version ++ payload)%list,
                      None), c', w')
          /\ extractSubjectAndVersionFromData topic isKey
               (mkSlice (Byte.x00 :: bytesForSchemaID version ++ payload) sp)
             = Returns (mkSubjectVersionID (getTopicNameStrategy topic isKey)
                                           (version mod 2 ^ 32), None)
          /\ (~ (0 <= version < 2 ^ 32) -> version mod 2 ^ 32 <> version))
  /\ (forall topic isKey schema native c w frame c' w' version verr r1 sp,
        GetVersionFor (client c) (getTopicNameStrategy topic isKey) schema
                      (registry w) = ((version, verr), r1) ->
        Encode topic isKey schema native c w = (Returns (frame, None), c', w') ->
        extractSubjectAndVersionFromData topic isKey (mkSlice frame sp)
        = Returns (mkSubjectVersionID (getTopicNameStrategy topic isKey)
                                      (version mod 2 ^ 32), None)
        /\ (~ (0 <= version < 2 ^ 32) -> version mod 2 ^ 32 <> version)).
Proof.
  assert (Hwrap : forall v, ~ (0 <= v < 2 ^ 32) -> v mod 2 ^ 32 <> v).
  { intros v Hout Heq. apply Hout. rewrite <- Heq.
    apply Z.mod_pos_bound. lia. }
  split_and!.
  - intros v sp. apply getSchemaID_bytesForSchemaID.
  - intros v. unfold bytesForSchemaID.
    apply PutUint32_big_endian.
  - intros v sp Hv. rewrite getSchemaID_bytesForSchemaID.
    unfold GoInt.uint32. rewrite Z.mod_small; [reflexivity | exact Hv].
  - intros v sp Hout. rewrite getSchemaID_bytesForSchemaID.
    intros [= Heq]. exact (Hwrap v Hout Heq).
  - intros topic isKey schema native c w version r1 g payload sp Hver Hres Hser.
    destruct (Encode_succeeds _ _ _ _ _ _ _ _ _ _ Hver Hres Hser)
      as (p & c' & w' & HE & _ & _).
    exists c', w'. split_and!; [exact HE | | apply Hwrap].
    apply (extract_frame topic isKey version payload sp).
  - intros topic isKey schema native c w frame c' w' version verr r1 sp Hver Henc.
    split; [|apply Hwrap].
    apply Encode_inv in Henc.
    destruct Henc as (version' & verr' & r1' & Hver' & _ & p & payload & _ & _ & ->).
    rewrite Hver in Hver'. injection Hver' as <- _ _.
    apply extract_frame.
Qed.

End FramingClaims.

(** ** Properties of the codec and the encoder *)

Section CodecClaims.

Context {V R : Type} {G : goavro V}.

Implicit Types (c : Codec V R) (w : World R) (key : subjectVersionID).

Lemma Decode_frame_resolving topic isKey version payload sp
    (d : Codec V R) (w2 : World R) g native rest err :
  resolves_to d (registry w2)
    (mkSubjectVersionID (getTopicNameStrategy topic isKey) (GoInt.uint32 version))
    g ->
  NativeFromBinary g payload = (native, rest, err) ->
  exists d' w2',
    Decode topic isKey
           (mkSlice (([Byte.x00] ++ bytesForSchemaID version) ++ payload) sp) d w2
    = (Returns (native, err), d', w2').
Proof.
  intros Hres Hdec.
  destruct (resolves_to_getCodecFor d w2 _ g Hres) as (p & d' & w2' & Hget & Ht & _).
  exists d', w2'. unfold Decode. rewrite extract_frame, Hget.
  rewrite reslice_from_ok.
  2:{ unfold len, bytesForSchemaID, BigEndian_PutUint32. cbn. lia. }
  unfold bytesForSchemaID, BigEndian_PutUint32. cbn [app visible drop].
  rewrite drop_0, Ht, Hdec. reflexivity.
Qed.

(** C3 (amended): let the registry return for [(subject, schema)] a version
    that fits the 4-byte field, [0 <= version < 2^32]; let the key
    [(subject, version)] resolve to a codec (an entry is cached, or the fetch
    and the compile succeed) that serializes the native value and whose
    decode inverts its encode.  Then [Encode] returns a frame, and [Decode]
    of that frame returns the native value and no error: on the encoding
    Codec, which it leaves as it is, and on every Codec and world in which
    the key resolves to that codec, through a cache entry or through a
    fetch and a compile of its own. *)
Theorem Decode_inverts_Encode topic isKey schema native c w version r1 g payload :
  GetVersionFor (client c) (getTopicNameStrategy topic isKey) schema (registry w)
  = ((version, None), r1) ->
  0 <= version < 2 ^ 32 ->
  resolves_to c r1 (mkSubjectVersionID (getTopicNameStrategy topic isKey) version) g ->
  BinaryFromNative g [] native = (payload, None) ->
  inverts g ->
  exists frame c' w',
    Encode topic isKey schema native c w = (Returns (frame, None), c', w')
    /\ (forall sp,
          Decode topic isKey (mkSlice frame sp) c' w'
          = (Returns (native, None), c', w'))
    /\ (forall (d : Codec V R) (w2 : World R) sp,
          resolves_to d (registry w2)
            (mkSubjectVersionID (getTopicNameStrategy topic isKey) version) g ->
          exists d' w2',
            Decode topic isKey (mkSlice frame sp) d w2
            = (Returns (native, None), d', w2')).
Proof.
  intros Hver Hrange Hres Henc Hinv.
  destruct (Encode_succeeds _ _ _ _ _ _ _ _ _ _ Hver Hres Henc)
    as (p & c' & w' & HE & Ht & Hc).
  destruct (Hinv _ _ Henc) as [rest Hdec].
  assert (Hu : GoInt.uint32 version = version)
    by (unfold GoInt.uint32; by rewrite Z.mod_small).
  eexists _, c', w'. split_and!; [exact HE | |].
  - intros sp. apply (Decode_frame _ _ _ _ _ _ _ p native rest None).
    + rewrite Hu. exact Hc.
    + rewrite Ht. exact Hdec.
  - intros d w2 sp Hd.
    apply (Decode_frame_resolving _ _ _ _ _ _ _ g native rest None);
      [by rewrite Hu | exact Hdec].
Qed.

(** C4 (amended): when [Encode] returns without error, its result is the
    byte [0x00], then four bytes that are the big-endian unsigned encoding
    of the version the registry returned for [(subject, schema)] reduced
    modulo [2^32] (of the version itself when it lies in [0, 2^32)), then
    the bytes the resolved codec serialized; when [Encode] returns an error,
    the bytes returned are [nil].  And [Encode] does return such a frame
    whenever the registry returns a version, the key resolves and the codec
    serializes the value. *)
Theorem Encode_frame_layout topic isKey schema native c w :
  (forall data err c' w',
     Encode topic isKey schema native c w = (Returns (data, err), c', w') ->
     match err with
     | Some _ => data = []
     | None =>
         exists version r1 p payload field,
           GetVersionFor (client c) (getTopicNameStrategy topic isKey) schema
                         (registry w) = ((version, None), r1)
           /\ codecCache c' !!
                mkSubjectVersionID (getTopicNameStrategy topic isKey) version
              = Some (Some p)
           /\ BinaryFromNative (target p) [] native = (payload, None)
           /\ data = (Byte.x00 :: field ++ payload)%list
           /\ encodes_u32 field (version mod 2 ^ 32)
           /\ (0 <= version < 2 ^ 32 -> encodes_u32 field version)
     end)
  /\ (forall version r1 g payload,
        GetVersionFor (client c) (getTopicNameStrategy topic isKey) schema
                      (registry w) = ((version, None), r1) ->
        resolves_to c r1
          (mkSubjectVersionID (getTopicNameStrategy topic isKey) version) g ->
        BinaryFromNative g [] native = (payload, None) ->
        exists field c' w',
          Encode topic isKey schema native c w
          = (Returns ((Byte.x00 :: field ++ payload)%list, None), c', w')
          /\ encodes_u32 field (version mod 2 ^ 32)).
Proof.
  assert (Hfield : forall version,
            encodes_u32 (bytesForSchemaID version) (version mod 2 ^ 32)).
  { intros version. split; [reflexivity|].
    unfold bytesForSchemaID. rewrite PutUint32_big_endian.
    apply big_endian_value_u32, uint32_range. }
  split.
  - intros data err c' w' H. apply Encode_inv in H.
    destruct H as (version & verr & r1 & Hver & H).
    destruct err as [e|]; [exact H|].
    destruct H as (-> & p & payload & Hc & Henc & ->).
    exists version, r1, p, payload, (bytesForSchemaID version).
    split_and!; try assumption; try reflexivity; try apply Hfield.
    intros Hrange. rewrite <- (Z.mod_small version (2 ^ 32)) at 2 by exact Hrange.
    apply Hfield.
  - intros version r1 g payload Hver Hres Hser.
    destruct (Encode_succeeds _ _ _ _ _ _ _ _ _ _ Hver Hres Hser)
      as (p & c' & w' & HE & _ & _).
    exists (bytesForSchemaID version), c', w'. split; [exact HE | apply Hfield].
Qed.

(** C6 (amended): once an entry exists for a key, every later resolution on
    that Codec, after any sequence of [Decode] and [Encode] calls, returns
    that same entry (the same codec object, address included) without
    changing anything, and the registry's schema lookup is not invoked for
    that key again.  On a Codec made by [NewCodec], if the registry keeps
    answering the schema lookup for the key and the schema compiles, the
    lookup is invoked at most once for the key over any sequence of calls. *)
Theorem cached_entry_is_reused k :
  (forall ops c w cached,
     codecCache c !! k = Some cached ->
     codecCache (fst (run ops (c, w))) !! k = Some cached
     /\ schema_lookups k (calls (snd (run ops (c, w))))
        = schema_lookups k (calls w)
     /\ getCodecFor k (fst (run ops (c, w))) (snd (run ops (c, w)))
        = ((cached, None), fst (run ops (c, w)), snd (run ops (c, w))))
  /\ (forall cl P ops w,
        always_resolvable cl P k ->
        P (registry w) ->
        schema_lookups k (calls w) = 0%nat ->
        (schema_lookups k (calls (snd (run ops (NewCodec cl, w)))) <= 1)%nat).
Proof.
  split.
  - intros ops c w cached Hk.
    destruct (run_keeps_entry ops c w k cached Hk) as [Hc Hl].
    split_and!; [exact Hc | exact Hl | by apply getCodecFor_hit].
  - intros cl P ops w Hok HP H0.
    assert (Hinit : looked_up_once cl P k (NewCodec (V:=V) cl, w)).
    { unfold looked_up_once; cbn [fst snd]. rewrite H0.
      split_and!; [reflexivity | exact HP | lia | reflexivity]. }
    destruct (run_looked_up_once cl P k ops _ Hok Hinit) as (_ & _ & Hle & _).
    exact Hle.
Qed.

(** C7: when the resolution of a key fails, because the registry's fetch
    returns an error or because the fetched schema does not compile,
    [getCodecFor] returns that error, [Decode] returns it with a [nil] value,
    [Encode] returns it with a [nil] frame, and each of them leaves the Codec
    as it was: nothing is stored for the key. *)
Theorem failed_resolution_stores_nothing key e c r :
  resolution_fails c r key e ->
  (forall w, registry w = r ->
     exists res w', getCodecFor key c w = ((res, Some e), c, w'))
  /\ (forall topic isKey data w,
        registry w = r ->
        extractSubjectAndVersionFromData topic isKey data = Returns (key, None) ->
        exists w', Decode topic isKey data c w = (Returns (None, Some e), c, w'))
  /\ (forall topic isKey schema native w version,
        key = mkSubjectVersionID (getTopicNameStrategy topic isKey) version ->
        GetVersionFor (client c) (getTopicNameStrategy topic isKey) schema
                      (registry w) = ((version, None), r) ->
        exists w', Encode topic isKey schema native c w
                   = (Returns ([], Some e), c, w')).
Proof.
  intros (Hmiss & text & err & r' & Hf & Herr).
  assert (Hget : forall w, registry w = r ->
            exists res w', getCodecFor key c w = ((res, Some e), c, w')).
  { intros w <-. destruct Herr as [-> | [-> Hg]].
    - rewrite (getCodecFor_fetch_fails _ _ _ _ _ _ Hmiss Hf). eauto.
    - eapply getCodecFor_compile_fails; eauto. }
  split_and!; [exact Hget | |].
  - intros topic isKey data w Hr Hx. unfold Decode. rewrite Hx.
    destruct (Hget w Hr) as (res & w' & ->). eauto.
  - intros topic isKey schema native w version -> Hver.
    unfold Encode, call_GetVersionFor. rewrite Hver. cbn zeta iota beta.
    set (w1 := mkWorld r _ _).
    destruct (Hget w1 eq_refl) as (res & w' & ->). eauto.
Qed.

(** C9: with [autoRegister = false], when the registry answers that the
    schema is not registered under the subject, [NewEncoder] returns the zero
    Encoder and an error whose message names the subject and the schema; when
    it answers that the schema is registered and the schema compiles, the
    Encoder is bound to the version of that answer.  In every case the only
    registry call made is the one [IsRegistered] query: [RegisterNewSchema]
    is not called. *)
Theorem NewEncoder_without_auto_register
    (cl : schemaregistry_Client R) subjectName avroSchema w :
  (forall sch r',
     IsRegistered cl subjectName avroSchema (registry w) = ((false, sch, None), r') ->
     NewEncoder cl false subjectName avroSchema w
     = (Returns (mkEncoder 0 None,
                 Some ("There is no registration on subject "
                       ++ subjectName ++ " for schema " ++ avroSchema)),
        mkWorld r' (CallIsRegistered subjectName avroSchema :: calls w) (allocs w)))
  /\ (forall sch r' g,
        IsRegistered cl subjectName avroSchema (registry w) = ((true, sch, None), r') ->
        goavro_compile avroSchema = (Some g, None) ->
        NewEncoder cl false subjectName avroSchema w
        = (Returns (mkEncoder (Schema_Version sch) (Some g), None),
           mkWorld r' (CallIsRegistered subjectName avroSchema :: calls w)
                   (S (allocs w))))
  /\ calls (snd (NewEncoder (V:=V) cl false subjectName avroSchema w))
     = CallIsRegistered subjectName avroSchema :: calls w.
Proof.
  unfold NewEncoder, call_IsRegistered, goavro_NewCodec. split_and!.
  - intros sch r' ->. reflexivity.
  - intros sch r' g -> ->. reflexivity.
  - destruct (IsRegistered _ _ _ _) as [[[isRegistered sch] [e|]] r'];
      [reflexivity|].
    destruct isRegistered; [|reflexivity]. cbn.
    destruct (goavro_compile avroSchema) as [[g|] [e|]]; reflexivity.
Qed.

End CodecClaims.

(** ** Concrete runs on the mock registry *)

Section OnTheMock.

Import Mock.

Lemma raw_codec_inverts : inverts raw_codec.
Proof.
  intros [v|] bs; cbn; [|discriminate].
  intros [= <-]. by eexists.
Qed.

Lemma registry_client_keeps P : registry_invariant registry_client P.
Proof.
  split.
  - intros subj schema r HP. cbn. by destruct (registered subj schema r).
  - intros key r HP. cbn. by destruct (at_version key r).
Qed.

Lemma orders_v1_always_resolvable :
  always_resolvable registry_client (fun r => r = orders_value_v 1) orders_v1.
Proof.
  split; [apply registry_client_keeps|].
  intros r ->. by eexists _, _.
Qed.

Lemma Decode_short_input_panics_witness :
  Decode "orders" false (mkSlice [] []) fresh (world [])
  = (Panics IndexOutOfRange, fresh, world [])
  /\ Decode "orders" false (mkSlice [Byte.x00; Byte.x00] [Byte.x00]) fresh (world [])
     = (Panics SliceBoundsOutOfRange, fresh, world []).
Proof.
  destruct (Decode_short_input_panics "orders" false fresh (world []))
    as [Hempty Hshort].
  split; [apply Hempty | apply Hshort; simpl; lia].
Defined.

(** With spare capacity behind a short input, [data[1:5]] is legal: the
    version is read from beyond [len], the registry is asked, the cache is
    filled, and only then [data[5:]] panics. *)
Example Decode_short_input_reads_spare :
  let '(o, c, w) :=
    Decode "orders" false
           (mkSlice [Byte.x00] [Byte.x00; Byte.x00; Byte.x00; Byte.x01])
           fresh (world (orders_value_v 1)) in
  o = Panics SliceBoundsOutOfRange
  /\ calls w = [CallGetSchemaFor orders_v1]
  /\ codecCache c !! orders_v1 = Some (Some (mkPtr 0%nat raw_codec)).
Proof. vm_compute. auto. Qed.

(** C2 (as stated, refuted): no function of the returned error gives back
    the offending byte, since the inputs [01 00 00 00 01] and
    [02 00 00 00 01] are rejected with one and the same error. *)
Lemma Decode_error_omits_magic_byte :
  ~ exists offending : error -> byte,
      forall b rest,
        b <> Byte.x00 ->
        exists e,
          fst (fst (Decode "orders" false (slice_of (b :: rest)) fresh (world [])))
          = Returns (None, Some e)
          /\ offending e = b.
Proof.
  intros [offending H].
  destruct (H Byte.x01 [Byte.x00; Byte.x00; Byte.x00; Byte.x01] ltac:(discriminate))
    as (e1 & He1 & Hb1).
  destruct (H Byte.x02 [Byte.x00; Byte.x00; Byte.x00; Byte.x01] ltac:(discriminate))
    as (e2 & He2 & Hb2).
  vm_compute in He1, He2.
  injection He1 as <-. injection He2 as <-.
  rewrite Hb1 in Hb2. discriminate Hb2.
Qed.

Lemma Decode_rejects_nonzero_magic_witness :
  Decode "orders" false
         (slice_of [Byte.x01; Byte.x00; Byte.x00; Byte.x00; Byte.x01])
         fresh (world [])
  = (Returns (None, Some "Unknown magic byte"), fresh, world []).
Proof.
  apply (Decode_rejects_nonzero_magic "orders" false Byte.x01). discriminate.
Defined.

(** C3 (as stated, refuted): the schema is registered under [orders-value]
    with version [2^32 + 1] and the codec inverts its encode; [Encode]
    succeeds, and [Decode] of its frame fails, looking for version 1. *)
Lemma roundtrip_breaks_beyond_uint32 :
  inverts raw_codec
  /\ registered "orders-value" "bytes" (orders_value_v (2 ^ 32 + 1))
     = Some (mkSchema "bytes" "orders-value" (2 ^ 32 + 1) 1)
  /\ exists frame c' w',
       Encode "orders" false "bytes" (Some [Byte.x07]) fresh
              (world (orders_value_v (2 ^ 32 + 1)))
       = (Returns (frame, None), c', w')
       /\ fst (fst (Decode "orders" false (slice_of frame) c' w'))
          = Returns (None, Some not_found).
Proof.
  split; [apply raw_codec_inverts|]. split; [reflexivity|].
  eexists _, _, _. split; [reflexivity|]. vm_compute. reflexivity.
Qed.

Lemma Decode_inverts_Encode_witness :
  exists frame c' w',
    Encode "orders" false "bytes" (Some [Byte.x07]) fresh (world (orders_value_v 3))
    = (Returns (frame, None), c', w')
    /\ (forall sp,
          Decode "orders" false (mkSlice frame sp) c' w'
          = (Returns (Some [Byte.x07], None), c', w'))
    /\ (forall sp,
          exists d' w2',
            Decode "orders" false (mkSlice frame sp) fresh
                   (world (orders_value_v 3))
            = (Returns (Some [Byte.x07], None), d', w2')).
Proof.
  destruct (Decode_inverts_Encode "orders" false "bytes" (Some [Byte.x07]) fresh
              (world (orders_value_v 3)) 3 (orders_value_v 3) raw_codec [Byte.x07])
    as (frame & c' & w' & HE & Hsame & Hany).
  - reflexivity.
  - lia.
  - right. split; [reflexivity|]. by eexists _, _.
  - reflexivity.
  - apply raw_codec_inverts.
  - exists frame, c', w'. split_and!; [exact HE | exact Hsame |].
    intros sp. apply Hany.
    right. split; [reflexivity|]. by eexists _, _.
Defined.

(** C4 (as stated, refuted): the registry returns the version [2^32 + 3];
    [Encode] returns the frame [00 00 00 00 03 07], and no four bytes after
    the magic byte of that frame are the encoding of [2^32 + 3]. *)
Lemma Encode_frame_wraps_version :
  fst (GetVersionFor registry_client "orders-value" "bytes"
                     (orders_value_v (2 ^ 32 + 3)))
  = (2 ^ 32 + 3, None)
  /\ fst (fst (Encode "orders" false "bytes" (Some [Byte.x07]) fresh
                      (world (orders_value_v (2 ^ 32 + 3)))))
     = Returns ([Byte.x00; Byte.x00; Byte.x00; Byte.x00; Byte.x03; Byte.x07],
                None)
  /\ ~ exists field payload,
         [Byte.x00; Byte.x00; Byte.x00; Byte.x00; Byte.x03; Byte.x07]
         = (Byte.x00 :: field ++ payload)%list
         /\ encodes_u32 field (2 ^ 32 + 3).
Proof.
  split_and!; [reflexivity | reflexivity |].
  intros (field & payload & _ & Hlen & Hval).
  destruct field as [|b0 [|b1 [|b2 [|b3 [|b4 field]]]]]; try discriminate Hlen.
  pose proof (big_endian_value_range b0 b1 b2 b3) as Hr.
  unfold GoInt.in_uint32 in Hr. rewrite Hval in Hr. lia.
Qed.

Lemma Encode_frame_layout_witness :
  (exists version r1 p payload field,
     GetVersionFor registry_client "orders-value" "bytes" (orders_value_v 3)
     = ((version, None), r1)
     /\ codecCache
          (snd (fst (Encode "orders" false "bytes" (Some [Byte.x07]) fresh
                            (world (orders_value_v 3)))))
          !! mkSubjectVersionID "orders-value" version
        = Some (Some p)
     /\ BinaryFromNative (target p) [] (Some [Byte.x07]) = (payload, None)
     /\ [Byte.x00; Byte.x00; Byte.x00; Byte.x00; Byte.x03; Byte.x07]
        = (Byte.x00 :: field ++ payload)%list
     /\ encodes_u32 field (version mod 2 ^ 32)
     /\ (0 <= version < 2 ^ 32 -> encodes_u32 field version))
  /\ (exists field c' w',
        Encode "orders" false "bytes" (Some [Byte.x07]) fresh
               (world (orders_value_v (2 ^ 32 + 3)))
        = (Returns ((Byte.x00 :: field ++ [Byte.x07])%list, None), c', w')
        /\ encodes_u32 field ((2 ^ 32 + 3) mod 2 ^ 32)).
Proof.
  split.
  - exact (proj1 (Encode_frame_layout "orders" false "bytes" (Some [Byte.x07])
                    fresh (world (orders_value_v 3)))
                 _ None _ _ eq_refl).
  - apply (proj2 (Encode_frame_layout "orders" false "bytes" (Some [Byte.x07])
                    fresh (world (orders_value_v (2 ^ 32 + 3))))
                 (2 ^ 32 + 3) (orders_value_v (2 ^ 32 + 3)) raw_codec).
    + reflexivity.
    + right. split; [reflexivity|]. by eexists _, _.
    + reflexivity.
Defined.

(** C6 (as stated, refuted): the registry has no schema for the key; two
    [Decode] calls of one frame on one Codec invoke the schema lookup for
    the key twice. *)
Lemma failed_lookups_are_repeated :
  ~ (schema_lookups orders_v1
       (calls (snd (run [decode_v1; decode_v1] (fresh, world []))))
     <= 1)%nat.
Proof. vm_compute. lia. Qed.

Lemma cached_entry_is_reused_witness :
  (codecCache (fst (run [encode_07; decode_v1] warm)) !! orders_v1
   = Some (Some (mkPtr 0%nat raw_codec))
   /\ schema_lookups orders_v1 (calls (snd (run [encode_07; decode_v1] warm)))
      = schema_lookups orders_v1 (calls (snd warm))
   /\ getCodecFor orders_v1 (fst (run [encode_07; decode_v1] warm))
                  (snd (run [encode_07; decode_v1] warm))
      = ((Some (mkPtr 0%nat raw_codec), None),
         fst (run [encode_07; decode_v1] warm),
         snd (run [encode_07; decode_v1] warm)))
  /\ (schema_lookups orders_v1
        (calls (snd (run [decode_v1; encode_07; decode_v1]
                         (fresh, world (orders_value_v 1)))))
      <= 1)%nat.
Proof.
  destruct (cached_entry_is_reused (V:=list byte) (R:=Registry) orders_v1)
    as [Hkeep Honce].
  split.
  - rewrite (surjective_pairing warm). apply Hkeep. vm_compute. reflexivity.
  - apply (Honce registry_client (fun r => r = orders_value_v 1)).
    + apply orders_v1_always_resolvable.
    + reflexivity.
    + reflexivity.
Defined.

Lemma failed_resolution_stores_nothing_witness :
  (exists res w',
     getCodecFor orders_v1 fresh (world []) = ((res, Some not_found), fresh, w'))
  /\ (exists w',
        Decode "orders" false (slice_of frame_v1) fresh (world [])
        = (Returns (None, Some not_found), fresh, w'))
  /\ (exists w',
        Encode "orders" false "none" (Some [Byte.x07]) fresh (world uncompilable)
        = (Returns ([], Some "unknown schema"), fresh, w')).
Proof.
  assert (Hfetch : resolution_fails fresh [] orders_v1 not_found).
  { split; [reflexivity|]. eexists _, _, _. split; [reflexivity|]. by left. }
  assert (Hcompile : resolution_fails fresh uncompilable orders_v1 "unknown schema").
  { split; [reflexivity|]. eexists _, _, _. split; [reflexivity|]. by right. }
  destruct (failed_resolution_stores_nothing _ _ _ _ Hfetch) as (Hget & Hdec & _).
  destruct (failed_resolution_stores_nothing _ _ _ _ Hcompile) as (_ & _ & Henc).
  split_and!.
  - apply Hget. reflexivity.
  - apply Hdec; [reflexivity | vm_compute; reflexivity].
  - apply (Henc "orders" false "none" (Some [Byte.x07]) (world uncompilable) 1);
      reflexivity.
Defined.

Lemma subject_naming_is_consistent_witness :
  calls (snd (Decode "orders" true (slice_of frame_v1) fresh (world [])))
  = [CallGetSchemaFor (mkSubjectVersionID "orders-key" 1)]
  /\ calls (snd (Decode "orders" false (slice_of frame_v1) fresh (world [])))
     = [CallGetSchemaFor (mkSubjectVersionID "orders-value" 1)]
  /\ calls (snd (Encode "orders" true "bytes" (Some [Byte.x07]) fresh (world [])))
     = [CallGetVersionFor "orders-key" "bytes"]
  /\ calls (snd (Encode "orders" false "bytes" (Some [Byte.x07]) fresh
                        (world (orders_value_v 1))))
     = [CallGetSchemaFor (mkSubjectVersionID "orders-value" 1);
        CallGetVersionFor "orders-value" "bytes"]
  /\ (exists version p,
        codecCache
          (snd (fst (Encode "orders" false "bytes" (Some [Byte.x07]) fresh
                            (world (orders_value_v 1)))))
          !! mkSubjectVersionID "orders-value" version
        = Some (Some p)
        /\ forall sp (d : Codec (list byte) Registry) (w2 : World Registry),
             state_after (Decode "orders" false (mkSlice frame_v1 sp) d w2)
             = state_after
                 (getCodecFor
                    (mkSubjectVersionID "orders-value" (version mod 2 ^ 32))
                    d w2)).
Proof.
  destruct (subject_naming_is_consistent (V:=list byte) (R:=Registry) "orders" true)
    as (_ & _ & Hdk & Hek & _).
  destruct (subject_naming_is_consistent (V:=list byte) (R:=Registry) "orders" false)
    as (_ & _ & Hdv & Hev & Hcross).
  split_and!.
  - pose proof (Hdk Byte.x00 Byte.x00 Byte.x00 Byte.x01 [Byte.x07] []
                    fresh (world [])) as H.
    apply (f_equal (fun s => calls (snd s))) in H.
    etransitivity; [exact H | vm_compute; reflexivity].
  - pose proof (Hdv Byte.x00 Byte.x00 Byte.x00 Byte.x01 [Byte.x07] []
                    fresh (world [])) as H.
    apply (f_equal (fun s => calls (snd s))) in H.
    etransitivity; [exact H | vm_compute; reflexivity].
  - pose proof (Hek "bytes" (Some [Byte.x07]) fresh (world [])) as H.
    apply (f_equal (fun s => calls (snd s))) in H.
    etransitivity; [exact H | vm_compute; reflexivity].
  - pose proof (Hev "bytes" (Some [Byte.x07]) fresh (world (orders_value_v 1)))
      as H.
    apply (f_equal (fun s => calls (snd s))) in H.
    etransitivity; [exact H | vm_compute; reflexivity].
  - apply (Hcross "bytes" (Some [Byte.x07]) fresh (world (orders_value_v 1))
             frame_v1 _
             (snd (Encode "orders" false "bytes" (Some [Byte.x07]) fresh
                          (world (orders_value_v 1))))).
    reflexivity.
Defined.

Lemma NewEncoder_without_auto_register_witness :
  NewEncoder lenses_client false "orders-value" "bytes" (world [])
  = (Returns (mkEncoder 0 None,
              Some "There is no registration on subject orders-value for schema bytes"),
     mkWorld [] [CallIsRegistered "orders-value" "bytes"] 0%nat)
  /\ NewEncoder lenses_client false "orders-value" "bytes" (world (orders_value_v 3))
     = (Returns (mkEncoder 3 (Some raw_codec), None),
        mkWorld (orders_value_v 3) [CallIsRegistered "orders-value" "bytes"] 1%nat).
Proof.
  split.
  - apply (proj1 (NewEncoder_without_auto_register lenses_client
                    "orders-value" "bytes" (world [])) (mkSchema "" "" 0 0)).
    reflexivity.
  - apply (proj1 (proj2 (NewEncoder_without_auto_register lenses_client
                    "orders-value" "bytes" (world (orders_value_v 3))))
             (mkSchema "bytes" "orders-value" 3 1));
      reflexivity.
Defined.

Lemma version_field_wraps_mod_2_32_witness :
  getSchemaID (slice_of (bytesForSchemaID 3)) = Returns 3
  /\ getSchemaID (slice_of (bytesForSchemaID (2 ^ 32 + 3))) <> Returns (2 ^ 32 + 3)
  /\ (exists c' w',
        Encode "orders" false "bytes" (Some [Byte.x07]) fresh
               (world (orders_value_v (2 ^ 32 + 1)))
        = (Returns (frame_v1, None), c', w')
        /\ extractSubjectAndVersionFromData "orders" false (slice_of frame_v1)
           = Returns (mkSubjectVersionID "orders-value"
                                         ((2 ^ 32 + 1) mod 2 ^ 32), None)
        /\ (~ (0 <= 2 ^ 32 + 1 < 2 ^ 32) -> (2 ^ 32 + 1) mod 2 ^ 32 <> 2 ^ 32 + 1))
  /\ (2 ^ 32 + 1) mod 2 ^ 32 <> 2 ^ 32 + 1.
Proof.
  destruct (version_field_wraps_mod_2_32 (V:=list byte) (R:=Registry))
    as (_ & _ & Hin & Hout & Hforward & Hback).
  split_and!.
  - apply Hin. lia.
  - apply Hout. lia.
  - apply (Hforward "orders" false "bytes" (Some [Byte.x07]) fresh
             (world (orders_value_v (2 ^ 32 + 1))) (2 ^ 32 + 1)
             (orders_value_v (2 ^ 32 + 1)) raw_codec [Byte.x07] []).
    + reflexivity.
    + right. split; [reflexivity|]. by eexists _, _.
    + reflexivity.
  - refine (proj2 (Hback "orders" false "bytes" (Some [Byte.x07]) fresh
                         (world (orders_value_v (2 ^ 32 + 1)))
                         frame_v1 _ _ (2 ^ 32 + 1) None _ [] _ _) _);
      [reflexivity | reflexivity | lia].
Defined.

(** C5 (as the code has it, where the claim fails): a Codec whose
    [subjectNameStrategy] field holds a strategy that ignores the key/value
    distinction, and a registry that has the schema under the subject that
    strategy gives, [orders].  The field is never read: [Encode] asks the
    registry for the version under [orders-value] and fails, and [Decode]
    looks the schema up under [orders-value] and fails. *)
Theorem configured_strategy_is_ignored :
  subjectNameStrategy ignoring_key "orders" false = "orders"
  /\ registered "orders" "bytes" orders_only
     = Some (mkSchema "bytes" "orders" 1 1)
  /\ fst (fst (Encode "orders" false "bytes" (Some [Byte.x07])
                      ignoring_key (world orders_only)))
     = Returns ([], Some not_found)
  /\ calls (snd (Encode "orders" false "bytes" (Some [Byte.x07])
                        ignoring_key (world orders_only)))
     = [CallGetVersionFor "orders-value" "bytes"]
  /\ fst (fst (Decode "orders" false (slice_of frame_v1)
                      ignoring_key (world orders_only)))
     = Returns (None, Some not_found)
  /\ calls (snd (Decode "orders" false (slice_of frame_v1)
                        ignoring_key (world orders_only)))
     = [CallGetSchemaFor (mkSubjectVersionID "orders-value" 1)].
Proof. vm_compute. auto 10. Qed.

End OnTheMock.

(** ** The single-schema Encoder *)

Section EncoderProperties.

Context {V R : Type} {G : goavro V}.

Implicit Types (c : Codec V R) (w : World R) (cl : schemaregistry_Client R).

(** X1: with [autoRegister = true], [NewEncoder] makes exactly one registry
    call, [RegisterNewSchema]; when it succeeds and the schema compiles the
    Encoder is bound to the version it returned, and when it fails the
    error is returned with the zero Encoder and nothing is compiled. *)
Theorem NewEncoder_auto_register cl subjectName avroSchema w :
  (forall version r' g,
     RegisterNewSchema cl subjectName avroSchema (registry w)
     = ((version, None), r') ->
     goavro_compile avroSchema = (Some g, None) ->
     NewEncoder cl true subjectName avroSchema w
     = (Returns (mkEncoder version (Some g), None),
        mkWorld r' (CallRegisterNewSchema subjectName avroSchema :: calls w)
                (S (allocs w))))
  /\ (forall version e r',
        RegisterNewSchema cl subjectName avroSchema (registry w)
        = ((version, Some e), r') ->
        NewEncoder (V:=V) cl true subjectName avroSchema w
        = (Returns (mkEncoder 0 None, Some e),
           mkWorld r' (CallRegisterNewSchema subjectName avroSchema :: calls w)
                   (allocs w)))
  /\ calls (snd (NewEncoder (V:=V) cl true subjectName avroSchema w))
     = CallRegisterNewSchema subjectName avroSchema :: calls w.
Proof.
  unfold NewEncoder, call_RegisterNewSchema, goavro_NewCodec. split_and!.
  - intros version r' g -> ->. reflexivity.
  - intros version e r' ->. reflexivity.
  - destruct (RegisterNewSchema _ _ _ _) as [[version [e|]] r']; [reflexivity|].
    cbn. destruct (goavro_compile avroSchema) as [[g|] [e|]]; reflexivity.
Qed.

(** X2: when the schema does not compile, [NewEncoder] returns the zero
    Encoder and the compiler's error, after the registry call has been made:
    with [autoRegister = true] the registry is left in the state
    [RegisterNewSchema] produced, the failed construction does not undo the
    registration. *)
Theorem NewEncoder_compile_failure cl subjectName avroSchema w e :
  snd (goavro_compile avroSchema) = Some e ->
  (forall version r',
     RegisterNewSchema cl subjectName avroSchema (registry w)
     = ((version, None), r') ->
     fst (NewEncoder (V:=V) cl true subjectName avroSchema w)
     = Returns (mkEncoder 0 None, Some e)
     /\ registry (snd (NewEncoder (V:=V) cl true subjectName avroSchema w)) = r'
     /\ calls (snd (NewEncoder (V:=V) cl true subjectName avroSchema w))
        = CallRegisterNewSchema subjectName avroSchema :: calls w)
  /\ (forall sch r',
        IsRegistered cl subjectName avroSchema (registry w)
        = ((true, sch, None), r') ->
        fst (NewEncoder (V:=V) cl false subjectName avroSchema w)
        = Returns (mkEncoder 0 None, Some e)).
Proof.
  intros He.
  unfold NewEncoder, call_RegisterNewSchema, call_IsRegistered, goavro_NewCodec.
  split.
  - intros version r' ->. cbn.
    destruct (goavro_compile avroSchema) as [[g|] err]; cbn in He; subst err;
      cbn; auto.
  - intros sch r' ->. cbn.
    destruct (goavro_compile avroSchema) as [[g|] err]; cbn in He; subst err;
      reflexivity.
Qed.

(** X3: an Encoder that [NewEncoder] returns without error, in either mode,
    holds the codec compiled from the given schema text; its [Encode] does
    not panic and returns exactly what that codec's [BinaryFromNative]
    returns on an empty buffer: payload bytes, no header. *)
Theorem NewEncoder_success_is_usable cl autoRegister subjectName avroSchema w enc w' :
  NewEncoder cl autoRegister subjectName avroSchema w = (Returns (enc, None), w') ->
  exists g,
    fst (goavro_compile avroSchema) = Some g
    /\ codec enc = Some g
    /\ forall native,
         Encoder_Encode enc native = Returns (BinaryFromNative g [] native).
Proof.
  unfold NewEncoder, call_RegisterNewSchema, call_IsRegistered, goavro_NewCodec.
  intros H.
  assert (Hbind : forall version (w0 : World R),
            (let '(compiled, codecErr, w1) :=
               match goavro_compile avroSchema with
               | (Some obj, err) =>
                   (Some (mkPtr (allocs w0) obj), err,
                    mkWorld (registry w0) (calls w0) (S (allocs w0)))
               | (None, err) => (None, err, w0)
               end in
             match codecErr with
             | Some e => (Returns (mkEncoder 0 None, Some e), w1)
             | None =>
                 match compiled with
                 | Some p => (Returns (mkEncoder version (Some (target p)), None), w1)
                 | None => (Panics NilPointerDereference, w1)
                 end
             end) = (Returns (enc, None), w') ->
            exists g,
              fst (goavro_compile avroSchema) = Some g
              /\ codec enc = Some g
              /\ forall native,
                   Encoder_Encode enc native
                   = Returns (BinaryFromNative g [] native)).
  { intros version w0.
    destruct (goavro_compile avroSchema) as [[g|] [e|]]; cbn; try discriminate.
    intros [= <- _]. exists g. split_and!; reflexivity. }
  destruct autoRegister.
  - destruct (RegisterNewSchema _ _ _ _) as [[version [e|]] r'];
      [discriminate|]. exact (Hbind _ _ H).
  - destruct (IsRegistered _ _ _ _) as [[[isRegistered sch] [e|]] r'];
      [discriminate|].
    destruct isRegistered; [|discriminate]. exact (Hbind _ _ H).
Qed.

(** X4: for one and the same compiled codec, the frame [Codec.Encode]
    returns is the magic byte and the four version bytes followed by exactly
    the bytes [Encoder.Encode] returns: the Encoder's output is the frame
    without its five-byte header. *)
Theorem Codec_frame_is_header_plus_Encoder_output
    topic isKey schema native c w version r1 g (enc : Encoder V) payload :
  codec enc = Some g ->
  Encoder_Encode enc native = Returns (payload, None) ->
  GetVersionFor (client c) (getTopicNameStrategy topic isKey) schema (registry w)
  = ((version, None), r1) ->
  resolves_to c r1 (mkSubjectVersionID (getTopicNameStrategy topic isKey) version) g ->
  exists frame c' w',
    Encode topic isKey schema native c w = (Returns (frame, None), c', w')
    /\ frame = (Byte.x00 :: bytesForSchemaID version ++ payload)%list
    /\ length frame = (5 + length payload)%nat.
Proof.
  intros Hg Henc Hver Hres. unfold Encoder_Encode in Henc. rewrite Hg in Henc.
  injection Henc as Henc.
  destruct (Encode_succeeds _ _ _ _ _ _ _ _ _ _ Hver Hres Henc)
    as (p & c' & w' & HE & _ & _).
  eexists _, c', w'. split_and!; [exact HE | reflexivity | reflexivity].
Qed.

End EncoderProperties.

Lemma NewEncoder_auto_register_witness :
  NewEncoder Mock.lenses_client true "orders-value" "bytes" (Mock.world [])
  = (Returns (mkEncoder 1 (Some Mock.raw_codec), None),
     mkWorld [mkSchema "bytes" "orders-value" 1 1]
             [CallRegisterNewSchema "orders-value" "bytes"] 1%nat).
Proof.
  apply (proj1 (NewEncoder_auto_register Mock.lenses_client
                  "orders-value" "bytes" (Mock.world []))); reflexivity.
Defined.

Lemma NewEncoder_compile_failure_witness :
  fst (NewEncoder (V:=list byte) Mock.lenses_client true "orders-value" "none"
                  (Mock.world []))
  = Returns (mkEncoder 0 None, Some "unknown schema")
  /\ registry (snd (NewEncoder (V:=list byte) Mock.lenses_client true
                               "orders-value" "none" (Mock.world [])))
     = Mock.uncompilable
  /\ calls (snd (NewEncoder (V:=list byte) Mock.lenses_client true
                            "orders-value" "none" (Mock.world [])))
     = [CallRegisterNewSchema "orders-value" "none"].
Proof.
  destruct (NewEncoder_compile_failure (V:=list byte) Mock.lenses_client
              "orders-value" "none" (Mock.world []) "unknown schema")
    as [Hauto _]; [reflexivity|].
  apply (Hauto 1). reflexivity.
Defined.

Lemma NewEncoder_success_is_usable_witness :
  exists g,
    fst (goavro_compile "bytes") = Some g
    /\ codec Demo.encoder_v3 = Some g
    /\ forall native,
         Encoder_Encode Demo.encoder_v3 native
         = Returns (BinaryFromNative g [] native).
Proof.
  apply (NewEncoder_success_is_usable Mock.lenses_client false
           "orders-value" "bytes" (Mock.world (Mock.orders_value_v 3))
           Demo.encoder_v3
           (mkWorld (Mock.orders_value_v 3)
                    [CallIsRegistered "orders-value" "bytes"] 1%nat)).
  reflexivity.
Defined.

Lemma Codec_frame_is_header_plus_Encoder_output_witness :
  exists frame c' w',
    Encode "orders" false "bytes" (Some [Byte.x07]) Mock.fresh
           (Mock.world (Mock.orders_value_v 3))
    = (Returns (frame, None), c', w')
    /\ frame = (Byte.x00 :: bytesForSchemaID 3 ++ [Byte.x07])%list
    /\ length frame = (5 + length [Byte.x07])%nat.
Proof.
  apply (Codec_frame_is_header_plus_Encoder_output "orders" false "bytes"
           (Some [Byte.x07]) Mock.fresh (Mock.world (Mock.orders_value_v 3))
           3 (Mock.orders_value_v 3) Mock.raw_codec Demo.encoder_v3 [Byte.x07]).
  - reflexivity.
  - reflexivity.
  - reflexivity.
  - right. split; [reflexivity|]. by eexists _, _.
Defined.

(** ** The version field, read back *)

Lemma byte_of_of_byte b : GoInt.byte_of (GoInt.of_byte b) = b.
Proof.
  pose proof (of_byte_range b) as Hb.
  unfold GoInt.byte_of, GoInt.of_byte in *.
  rewrite Z.mod_small by exact Hb. rewrite N2Z.id, Byte.of_to_N. reflexivity.
Qed.

Lemma byte_of_value x b : x mod 256 = GoInt.of_byte b -> GoInt.byte_of x = b.
Proof.
  intros Hx. rewrite <- (byte_of_of_byte b). unfold GoInt.byte_of.
  rewrite Hx. rewrite (Z.mod_small (GoInt.of_byte b)) by apply of_byte_range.
  reflexivity.
Qed.

(** X5: every four-byte field is the encoding of the version read from it:
    [getSchemaID] returns a version in [0, 2^32), and [bytesForSchemaID] of
    that version gives the four bytes back.  Bytes after the fourth, and the
    spare capacity, are not read. *)
Theorem version_field_reads_back b0 b1 b2 b3 rest sp :
  exists v,
    getSchemaID (mkSlice (b0 :: b1 :: b2 :: b3 :: rest) sp) = Returns v
    /\ 0 <= v < 2 ^ 32
    /\ bytesForSchemaID v = [b0; b1; b2; b3].
Proof.
  exists (big_endian_value [b0; b1; b2; b3]).
  pose proof (big_endian_value_range b0 b1 b2 b3) as Hr.
  split; [|split].
  - unfold getSchemaID. rewrite Uint32_value. f_equal. by apply int_of_uint32.
  - exact Hr.
  - unfold bytesForSchemaID, GoInt.uint32.
    rewrite Z.mod_small by exact Hr.
    rewrite PutUint32_big_endian. unfold big_endian_u32.
    unfold GoInt.in_uint32, big_endian_value in *. cbn [fold_left] in *.
    pose proof (of_byte_range b0). pose proof (of_byte_range b1).
    pose proof (of_byte_range b2). pose proof (of_byte_range b3).
    change (2 ^ 24) with 16777216. change (2 ^ 16) with 65536.
    change (2 ^ 8) with 256. change (2 ^ 32) with 4294967296 in Hr.
    f_equal; [|f_equal; [|f_equal; [|f_equal]]];
      apply byte_of_value; Z.div_mod_to_equations; lia.
Qed.

(** ** More on Decode and Encode *)

Section CodecProperties.

Context {V R : Type} {G : goavro V}.

Implicit Types (c : Codec V R) (w : World R) (key : subjectVersionID)
  (o : Op V) (ops : list (Op V)).

(** X6: on an input of at least five bytes that starts with [0x00], [Decode]
    resolves the key made of the subject and the big-endian value of bytes 1
    to 4, hands exactly the bytes from offset 5 to the resolved codec, and
    returns that codec's value and error, dropping the unread remainder; the
    spare capacity of the slice plays no part. *)
Theorem Decode_reads_header_then_payload topic isKey b0 b1 b2 b3 payload sp c w :
  Decode topic isKey
         (mkSlice (Byte.x00 :: b0 :: b1 :: b2 :: b3 :: payload) sp) c w
  = let key := mkSubjectVersionID (getTopicNameStrategy topic isKey)
                                  (big_endian_value [b0; b1; b2; b3]) in
    let '((resolved, err), c1, w1) := getCodecFor key c w in
    match err with
    | Some e => (Returns (None, Some e), c1, w1)
    | None =>
        match resolved with
        | None => (Panics NilPointerDereference, c1, w1)
        | Some p =>
            (Returns (fst (fst (NativeFromBinary (target p) payload)),
                      snd (NativeFromBinary (target p) payload)),
             c1, w1)
        end
    end.
Proof.
  unfold Decode. rewrite extract_header.
  unfold getSchemaID. rewrite Uint32_value.
  rewrite int_of_uint32 by apply big_endian_value_range.
  cbv zeta.
  destruct (getCodecFor _ c w) as [[[res [e|]] c1] w1]; [reflexivity|].
  rewrite reslice_from_ok by (unfold len; cbn; lia).
  cbn [visible drop]. rewrite drop_0.
  destruct res as [p|]; [|reflexivity].
  destruct (NativeFromBinary (target p) payload) as [[native rest] err].
  reflexivity.
Qed.







(** X8: once the key of an input is in the cache, decoding the same input
    again on the resulting Codec gives the same result and changes nothing:
    no registry call, no allocation, no cache update. *)
Theorem Decode_again_is_free topic isKey data c w res c1 w1 key :
  Decode topic isKey data c w = (res, c1, w1) ->
  extractSubjectAndVersionFromData topic isKey data = Returns (key, None) ->
  is_Some (codecCache c1 !! key) ->
  Decode topic isKey data c1 w1 = (res, c1, w1).
Proof.
  unfold Decode. intros H Hx [cached Hc1]. rewrite Hx in *.
  destruct (getCodecFor key c w) as [[[r err] c'] w'] eqn:Hget.
  assert (Hsame : c' = c1 /\ w' = w1).
  { destruct err; [by injection H|].
    destruct (reslice_from data 5); [|by injection H].
    destruct r as [p|]; [|by injection H].
    destruct (NativeFromBinary (target p) _) as [[? ?] ?]. by injection H. }
  destruct Hsame as [-> ->].
  apply getCodecFor_inv in Hget.
  assert (Hhit : codecCache c1 !! key = Some r /\ err = None).
  { inversion Hget; subst; try congruence.
    - by split.
    - split; [|reflexivity]. cbn. apply lookup_insert_eq. }
  destruct Hhit as [Hr ->].
  rewrite (getCodecFor_hit _ _ _ _ Hr). exact H.
Qed.

Lemma getCodecFor_log key c w res err c' w' :
  getCodecFor key c w = ((res, err), c', w') ->
  (is_Some (codecCache c !! key) /\ c' = c /\ w' = w)
  \/ (codecCache c !! key = None
      /\ calls w' = CallGetSchemaFor key :: calls w).
Proof.
  intros Hget. apply getCodecFor_inv in Hget. inversion Hget; subst.
  - left. split_and!; [by eexists | reflexivity | reflexivity].
  - right. by split.
  - right. by split.
  - right. by split.
Qed.


(** X10: [Encode] asks the registry for the version on every call.  When
    the key of the returned version is already in the cache, that
    [GetVersionFor] call is the only effect: nothing is fetched, compiled or
    stored. *)
Theorem Encode_on_cached_key topic isKey schema native c w version r1 :
  GetVersionFor (client c) (getTopicNameStrategy topic isKey) schema (registry w)
  = ((version, None), r1) ->
  is_Some (codecCache c !!
             mkSubjectVersionID (getTopicNameStrategy topic isKey) version) ->
  snd (fst (Encode topic isKey schema native c w)) = c
  /\ snd (Encode topic isKey schema native c w)
     = mkWorld r1
         (CallGetVersionFor (getTopicNameStrategy topic isKey) schema :: calls w)
         (allocs w).
Proof.
  intros Hver [cached Hc]. unfold Encode, call_GetVersionFor.
  rewrite Hver. cbn zeta iota beta.
  rewrite (getCodecFor_hit _ _ _ _ Hc). cbn zeta iota beta.
  destruct cached as [p|]; [|by split].
  destruct (BinaryFromNative (target p) [] native) as [payload [e|]]; by split.
Qed.

End CodecProperties.

(** ** What a sequence of calls never does *)

Section SequenceProperties.

Context {V R : Type} {G : goavro V}.

Implicit Types (c : Codec V R) (w : World R) (key : subjectVersionID)
  (o : Op V) (ops : list (Op V)).

Lemma step_resolution o c w :
  exists w1,
    allocs w1 = allocs w
    /\ registrations (calls w1) = registrations (calls w)
    /\ (step o (c, w) = (c, w1)
        \/ exists key res err c' w',
             getCodecFor key c w1 = ((res, err), c', w')
             /\ step o (c, w) = (c', w')).
Proof.
  destruct o as [topic isKey data | topic isKey schema native]; cbn [step fst snd].
  - exists w. split_and!; [reflexivity | reflexivity |]. unfold Decode.
    destruct (extractSubjectAndVersionFromData topic isKey data)
      as [[key [e|]]|p]; [by left | | by left].
    right. destruct (getCodecFor key c w) as [[[res err] c1] w1] eqn:Hget.
    exists key, res, err, c1, w1. split; [exact Hget|].
    destruct err; [reflexivity|].
    destruct (reslice_from data 5); [|reflexivity].
    destruct res as [p|]; [|reflexivity].
    destruct (NativeFromBinary (target p) _) as [[? ?] ?]. reflexivity.
  - unfold Encode, call_GetVersionFor.
    destruct (GetVersionFor _ _ _ _) as [[version verr] r1].
    cbn zeta iota beta.
    set (w1 := mkWorld r1 _ _). exists w1.
    split_and!; [reflexivity | reflexivity |].
    destruct verr as [e|]; [by left|]. right.
    destruct (getCodecFor _ c w1) as [[[res err] c2] w2] eqn:Hget.
    eexists _, res, err, c2, w2. split; [exact Hget|].
    destruct err; [reflexivity|].
    destruct res as [p|]; [|reflexivity].
    destruct (BinaryFromNative (target p) [] native) as [? [?|]]; reflexivity.
Qed.

Lemma getCodecFor_registrations key c w res err c' w' :
  getCodecFor key c w = ((res, err), c', w') ->
  registrations (calls w') = registrations (calls w).
Proof.
  intros Hget.
  destruct (getCodecFor_log _ _ _ _ _ _ _ Hget) as [(_ & _ & ->) | [_ ->]];
    reflexivity.
Qed.

(** X11: no sequence of [Decode] and [Encode] calls asks about, or makes,
    a registration: the [IsRegistered] and [RegisterNewSchema] calls of the
    log are those that were there before. *)
Theorem Codec_never_registers ops (s : Codec V R * World R) :
  registrations (calls (snd (run ops s))) = registrations (calls (snd s)).
Proof.
  revert s. induction ops as [|o ops IH]; intros s; [reflexivity|].
  change (run (o :: ops) s) with (run ops (step o s)). rewrite IH.
  destruct s as [c w].
  destruct (step_resolution o c w)
    as (w1 & _ & Hreg & [-> | (key & res & err & c' & w' & Hget & ->)]);
    cbn [snd]; [exact Hreg|].
  rewrite <- Hreg. by eapply getCodecFor_registrations.
Qed.

Lemma getCodecFor_alloc key c w res err c' w' :
  getCodecFor key c w = ((res, err), c', w') ->
  (allocs w <= allocs w')%nat
  /\ (c' = c
      \/ (codecCache c' = <[key := res]> (codecCache c)
          /\ forall p, res = Some p ->
                       addr p = allocs w /\ allocs w' = S (allocs w))).
Proof.
  unfold getCodecFor, call_GetSchemaFor, goavro_NewCodec.
  destruct (codecCache c !! key) as [cached|].
  { intros [= <- <- <- <-]. split; [lia | by left]. }
  destruct (GetSchemaFor _ _ _) as [[text [e|]] r'].
  { intros [= <- <- <- <-]. cbn. split; [lia | by left]. }
  cbn [allocs].
  destruct (goavro_compile text) as [[g|] [e|]]; intros [= <- <- <- <-]; cbn.
  - split; [lia | by left].
  - split; [lia|]. right. split; [reflexivity|].
    intros p [= <-]. by split.
  - split; [lia | by left].
  - split; [lia|]. right. split; [reflexivity|]. discriminate.
Qed.

Lemma step_objects_distinct o (s : Codec V R * World R) :
  objects_distinct s -> objects_distinct (step o s).
Proof.
  destruct s as [c w]. intros [Hbound Hinj]; cbn [fst snd] in *.
  destruct (step_resolution o c w)
    as (w1 & Hal & _ & [-> | (key & res & err & c' & w' & Hget & ->)]).
  { split; cbn [fst snd]; [|exact Hinj].
    intros k p Hk. rewrite Hal. by eapply Hbound. }
  destruct (getCodecFor_alloc _ _ _ _ _ _ _ Hget) as [Hle [-> | [Hc' Hnew]]].
  { split; cbn [fst snd]; [|exact Hinj].
    intros k p Hk. specialize (Hbound k p Hk). lia. }
  rewrite Hal in *.
  assert (Hcase : forall k p,
            codecCache c' !! k = Some (Some p) ->
            (k = key /\ addr p = allocs w /\ allocs w' = S (allocs w))
            \/ (codecCache c !! k = Some (Some p))).
  { intros k p. rewrite Hc'. intros Hk.
    apply lookup_insert_Some in Hk as [[<- Hres] | [_ Hk]]; [left | by right].
    destruct (Hnew p Hres). by split_and!. }
  split; cbn [fst snd].
  - intros k p Hk. destruct (Hcase k p Hk) as [(_ & -> & ->) | Hold]; [lia|].
    specialize (Hbound k p Hold). lia.
  - intros k1 k2 p1 p2 H1 H2 Heq.
    destruct (Hcase k1 p1 H1) as [(-> & Ha1 & _) | Hold1];
      destruct (Hcase k2 p2 H2) as [(-> & Ha2 & _) | Hold2].
    + reflexivity.
    + specialize (Hbound k2 p2 Hold2). lia.
    + specialize (Hbound k1 p1 Hold1). lia.
    + by eapply Hinj.
Qed.

(** X12: every key gets a codec object of its own.  If the cached objects
    are allocated ones and no two keys share one (as on a Codec made by
    [NewCodec]), that still holds after any sequence of calls: a resolution
    compiles a new object even when another key's schema text is the same. *)
Theorem objects_stay_distinct ops (s : Codec V R * World R) :
  objects_distinct s -> objects_distinct (run ops s).
Proof.
  revert s. induction ops as [|o ops IH]; intros s Hs; [exact Hs|].
  change (run (o :: ops) s) with (run ops (step o s)).
  apply IH. by apply step_objects_distinct.
Qed.

End SequenceProperties.

(** ** The example consumer *)

Section Consumer.

Context {V R : Type} {G : goavro V}.

Implicit Types (cache : gmap Main.schemaCacheKey string) (w : Main.World R)
  (client : Main.Client R).

(** X13: a schema that [getSchemaBySubject] returns without error is in the
    cache afterwards, and every later call for the same subject and version
    returns it from there, whatever the registry would answer by then:
    no registry call is made and the cache is not changed. *)
Theorem getSchemaBySubject_serves_from_cache
    subj version cache client w schema cache1 w1 :
  Main.getSchemaBySubject subj version cache client w
  = ((schema, None), cache1, w1) ->
  cache1 !! Main.mkSchemaCacheKey subj version = Some schema
  /\ forall client' w2,
       Main.getSchemaBySubject subj version cache1 client' w2
       = ((schema, None), cache1, w2).
Proof.
  unfold Main.getSchemaBySubject. cbv zeta.
  destruct (cache !! Main.mkSchemaCacheKey subj version) as [cached|] eqn:Hc.
  - intros [= <- <- <-]. split; [exact Hc|]. intros client' w2.
    rewrite Hc. reflexivity.
  - destruct (Main.GetSchemaBySubject client subj version (Main.registry w))
      as [[avroSchema [e|]] r']; [discriminate|].
    intros [= <- <- <-]. split; [apply lookup_insert_eq|].
    intros client' w2. rewrite lookup_insert_eq. reflexivity.
Qed.

(** X14: a failed lookup returns the empty schema text with the registry's
    error and stores nothing, so the next call for the same subject and
    version asks the registry again. *)
Theorem getSchemaBySubject_failure_is_not_cached
    subj version cache client w schema e cache1 w1 :
  Main.getSchemaBySubject subj version cache client w
  = ((schema, Some e), cache1, w1) ->
  schema = ""
  /\ cache1 = cache
  /\ cache !! Main.mkSchemaCacheKey subj version = None
  /\ Main.lookups w1 = Main.mkSchemaCacheKey subj version :: Main.lookups w
  /\ forall client',
       Main.lookups
         (snd (Main.getSchemaBySubject subj version cache1 client' w1))
       = Main.mkSchemaCacheKey subj version
         :: Main.mkSchemaCacheKey subj version :: Main.lookups w.
Proof.
  unfold Main.getSchemaBySubject. cbv zeta.
  destruct (cache !! Main.mkSchemaCacheKey subj version) as [cached|] eqn:Hc;
    [discriminate|].
  destruct (Main.GetSchemaBySubject client subj version (Main.registry w))
    as [[avroSchema [e'|]] r']; [|discriminate].
  intros [= <- <- <- <-]. split_and!; try reflexivity.
  intros client'. rewrite Hc.
  destruct (Main.GetSchemaBySubject client' subj version _)
    as [[avroSchema' [e''|]] r'']; reflexivity.
Qed.

(** X15: a call of [getSchemaBySubject] never overwrites or removes an
    entry, leaves the entries of all other keys as they are, and makes at
    most one registry call, for the key it was asked. *)
Theorem getSchemaBySubject_keeps_entries subj version cache client w :
  (forall k s, cache !! k = Some s ->
     snd (fst (Main.getSchemaBySubject subj version cache client w)) !! k
     = Some s)
  /\ (forall k, k <> Main.mkSchemaCacheKey subj version ->
        snd (fst (Main.getSchemaBySubject subj version cache client w)) !! k
        = cache !! k)
  /\ (Main.lookups (snd (Main.getSchemaBySubject subj version cache client w))
      = Main.lookups w
      \/ Main.lookups (snd (Main.getSchemaBySubject subj version cache client w))
         = Main.mkSchemaCacheKey subj version :: Main.lookups w).
Proof.
  unfold Main.getSchemaBySubject. cbv zeta.
  destruct (cache !! Main.mkSchemaCacheKey subj version) as [cached|] eqn:Hc.
  { split_and!; [by intros | by intros | by left]. }
  destruct (Main.GetSchemaBySubject client subj version (Main.registry w))
    as [[avroSchema [e|]] r']; cbn [fst snd Main.lookups].
  { split_and!; [by intros | by intros | by right]. }
  split_and!; [| | by right].
  - intros k s Hk. rewrite lookup_insert_ne; [exact Hk | congruence].
  - intros k Hne. by rewrite lookup_insert_ne.
Qed.

Lemma value_subject_is_not_key_subject topic :
  Main.getSubject topic <> getTopicNameStrategy topic true.
Proof.
  unfold Main.getSubject, getTopicNameStrategy.
  induction topic as [|a topic IH]; cbn; [discriminate|].
  intros [= H]. by apply IH.
Qed.

(** X16: the consumer's header handling accepts the frames [Codec.Encode]
    produces for record values.  On such a frame, for a version in
    [0, 2^32), byte 0 is the zero magic byte, [getSchemaID] of bytes 1 to 4
    is the version the registry returned, and [getSubject] gives the subject
    [Encode] used; for a frame encoded as a record key the subjects
    differ. *)
Theorem consumer_reads_value_frames
    topic schema native (c : Codec V R) (w : World R) frame c' (w' : World R)
    version verr r1 sp :
  GetVersionFor (client c) (getTopicNameStrategy topic false) schema (registry w)
  = ((version, verr), r1) ->
  Encode topic false schema native c w = (Returns (frame, None), c', w') ->
  0 <= version < 2 ^ 32 ->
  index (mkSlice frame sp) 0 = Returns Byte.x00
  /\ (exists field,
        reslice (mkSlice frame sp) 1 5 = Returns field
        /\ Main.getSchemaID field = Returns version)
  /\ is_Some (codecCache c' !! mkSubjectVersionID (Main.getSubject topic) version)
  /\ Main.getSubject topic <> getTopicNameStrategy topic true.
Proof.
  intros Hver Henc Hrange. apply Encode_inv in Henc.
  destruct Henc as (version' & verr' & r1' & Hver' & _ & p & payload & Hc & _ & ->).
  rewrite Hver in Hver'. injection Hver' as <- _ _.
  split_and!.
  - reflexivity.
  - exists (mkSlice (bytesForSchemaID version) (payload ++ sp)%list).
    split; [reflexivity|].
    transitivity (getSchemaID (mkSlice (bytesForSchemaID version)
                                       (payload ++ sp)%list));
      [reflexivity|].
    rewrite getSchemaID_bytesForSchemaID.
    unfold GoInt.uint32. by rewrite Z.mod_small.
  - by eexists.
  - apply value_subject_is_not_key_subject.
Qed.

End Consumer.

(** ** Concrete runs for the further properties *)


Lemma NewCodec_objects_distinct {V R : Type} (cl : schemaRegistryClient R)
    (w : World R) :
  objects_distinct (NewCodec (V:=V) cl, w).
Proof.
  split; cbn [fst snd NewCodec codecCache].
  - intros k p Hk. rewrite lookup_empty in Hk. discriminate.
  - intros k1 k2 p1 p2 Hk. rewrite lookup_empty in Hk. discriminate.
Qed.



Lemma Decode_again_is_free_witness :
  Decode "orders" false (slice_of Mock.frame_v1) (fst Mock.warm) (snd Mock.warm)
  = (Returns (Some [Byte.x07], None), fst Mock.warm, snd Mock.warm).
Proof.
  apply (Decode_again_is_free "orders" false (slice_of Mock.frame_v1) Mock.fresh
           (Mock.world (Mock.orders_value_v 1)) _ _ _ Mock.orders_v1).
  - vm_compute. reflexivity.
  - vm_compute. reflexivity.
  - vm_compute. eexists. reflexivity.
Defined.

Lemma Encode_on_cached_key_witness :
  snd (fst (Encode "orders" false "bytes" (Some [Byte.x07])
                   (fst Mock.warm) (snd Mock.warm)))
  = fst Mock.warm
  /\ snd (Encode "orders" false "bytes" (Some [Byte.x07])
                 (fst Mock.warm) (snd Mock.warm))
     = mkWorld (Mock.orders_value_v 1)
               (CallGetVersionFor "orders-value" "bytes" :: calls (snd Mock.warm))
               (allocs (snd Mock.warm)).
Proof.
  apply (Encode_on_cached_key "orders" false "bytes" (Some [Byte.x07])
           (fst Mock.warm) (snd Mock.warm) 1 (Mock.orders_value_v 1)).
  - vm_compute. reflexivity.
  - vm_compute. eexists. reflexivity.
Defined.

Lemma objects_stay_distinct_witness :
  objects_distinct
    (run [Mock.decode_v1; Mock.encode_07]
         (Mock.fresh, Mock.world (Mock.orders_value_v 1))).
Proof.
  apply objects_stay_distinct. apply NewCodec_objects_distinct.
Defined.

Lemma getSchemaBySubject_serves_from_cache_witness :
  Demo.cached_v1 !! Demo.orders_v1 = Some "bytes"
  /\ forall (client' : Main.Client Mock.Registry) w2,
       Main.getSchemaBySubject "orders-value" 1 Demo.cached_v1 client' w2
       = (("bytes", None), Demo.cached_v1, w2).
Proof.
  apply (getSchemaBySubject_serves_from_cache "orders-value" 1 ∅ Demo.client
           (Demo.world (Mock.orders_value_v 1)) "bytes" Demo.cached_v1
           (Main.mkWorld (Mock.orders_value_v 1) [Demo.orders_v1])).
  reflexivity.
Defined.

Lemma getSchemaBySubject_failure_is_not_cached_witness :
  Mock.not_found <> ""
  /\ forall client' : Main.Client Mock.Registry,
       Main.lookups
         (snd (Main.getSchemaBySubject "orders-value" 1 ∅ client'
                 (Main.mkWorld [] [Demo.orders_v1])))
       = [Demo.orders_v1; Demo.orders_v1].
Proof.
  split; [discriminate|].
  apply (getSchemaBySubject_failure_is_not_cached "orders-value" 1 ∅ Demo.client
           (Demo.world []) "" Mock.not_found ∅
           (Main.mkWorld [] [Demo.orders_v1])).
  reflexivity.
Defined.

Lemma getSchemaBySubject_keeps_entries_witness :
  snd (fst (Main.getSchemaBySubject "payments-value" 2 Demo.cached_v1
              Demo.client (Demo.world [mkSchema "bytes" "payments-value" 2 1])))
  !! Demo.orders_v1
  = Some "bytes".
Proof.
  apply (proj1 (getSchemaBySubject_keeps_entries "payments-value" 2
                  Demo.cached_v1 Demo.client
                  (Demo.world [mkSchema "bytes" "payments-value" 2 1]))).
  reflexivity.
Defined.

Lemma consumer_reads_value_frames_witness :
  index (slice_of [Byte.x00; Byte.x00; Byte.x00; Byte.x00; Byte.x03; Byte.x07]) 0
  = Returns Byte.x00
  /\ (exists field,
        reslice (slice_of [Byte.x00; Byte.x00; Byte.x00; Byte.x00; Byte.x03;
                           Byte.x07]) 1 5
        = Returns field
        /\ Main.getSchemaID field = Returns 3)
  /\ is_Some (codecCache
                (snd (fst (Encode "orders" false "bytes" (Some [Byte.x07])
                                  Mock.fresh (Mock.world (Mock.orders_value_v 3)))))
                !! mkSubjectVersionID (Main.getSubject "orders") 3)
  /\ Main.getSubject "orders" <> getTopicNameStrategy "orders" true.
Proof.
  eapply (consumer_reads_value_frames "orders" "bytes" (Some [Byte.x07])
           Mock.fresh (Mock.world (Mock.orders_value_v 3))
           [Byte.x00; Byte.x00; Byte.x00; Byte.x00; Byte.x03; Byte.x07]
           _ _ 3 None (Mock.orders_value_v 3) []).
  - reflexivity.
  - reflexivity.
  - lia.
Defined.
